(** * generate_icons.py: the icon renderer and the icon-set builder

    A shallow embedding of [src/generate_icons.py].  The script draws a
    square icon with Pillow ([Image], [ImageDraw], [ImageFont]) and writes
    an icon set.  Images are modelled as a size and a pixel function, the
    drawing calls as pixel transformers that also record the call, fonts as
    an interface, and the file system as a finite map with an event trace. *)

From Stdlib Require Import ZArith List Ascii String Floats.PrimFloat Numbers.Cyclic.Int63.Uint63.
From stdpp Require Import base option list strings pretty gmap.

Local Open Scope Z_scope.

(** ** Pixels and inks *)

(** One RGBA pixel, bands in 0..255. *)
Record RGBA := mkRGBA { red : Z; green : Z; blue_band : Z; alpha : Z }.

(** The [fill=] argument of a drawing call, as the script passes it: a
    3-tuple, a 4-tuple, or a single integer. *)
Inductive Fill :=
| Fill3 (r g b : Z)
| Fill4 (r g b a : Z)
| Fill1 (v : Z).

(** Pillow's 8-bit blend, [DIV255 (in1 * (255 - mask) + in2 * mask)]. *)
Definition div255 (a : Z) : Z :=
  let tmp := a + 128 in Z.shiftr (Z.shiftr tmp 8 + tmp) 8.

Definition blend8 (mask in1 in2 : Z) : Z :=
  div255 (in1 * (255 - mask) + in2 * mask).

(** A pixel mode: how a fill becomes ink, and how ink is blended through a
    coverage mask into a pixel. *)
Class Mode (P : Type) := {
  ink : Fill -> P;
  blend : Z -> P -> P -> P
}.

(** Mode 'RGBA': a 3-tuple gets alpha 255. *)
#[export] Instance mode_RGBA : Mode RGBA := {|
  ink f := match f with
           | Fill3 r g b => mkRGBA r g b 255
           | Fill4 r g b a => mkRGBA r g b a
           | Fill1 v => mkRGBA v 0 0 255
           end;
  blend m old new :=
    mkRGBA (blend8 m (red old) (red new)) (blend8 m (green old) (green new))
           (blend8 m (blue_band old) (blue_band new)) (blend8 m (alpha old) (alpha new))
|}.

(** Mode 'L': one band. *)
#[export] Instance mode_L : Mode Z := {|
  ink f := match f with
           | Fill1 v => v
           | Fill3 r _ _ | Fill4 r _ _ _ => r
           end;
  blend m old new := blend8 m old new
|}.

(** ** Images *)

Record Image (P : Type) := mkImage {
  width : Z;
  height : Z;
  pix : Z -> Z -> P
}.
Arguments mkImage {P}.
Arguments width {P}.
Arguments height {P}.
Arguments pix {P}.

Definition in_bounds {P} (im : Image P) (x y : Z) : bool :=
  (0 <=? x) && (x <? width im) && (0 <=? y) && (y <? height im).

(** [Image.new(mode, (w, h), color)]: raises on a negative dimension. *)
Definition Image_new {P} (w h : Z) (color : P) : option (Image P) :=
  if (w <? 0) || (h <? 0) then None
  else Some (mkImage w h (fun _ _ => color)).

(** [img.getpixel((x, y))]: raises outside the image. *)
Definition getpixel {P} (im : Image P) (x y : Z) : option P :=
  if in_bounds im x y then Some (pix im x y) else None.

(** [img.putalpha(mask)]: the alpha band becomes the mask; the sizes must
    agree. *)
Definition putalpha (im : Image RGBA) (mask : Image Z) : option (Image RGBA) :=
  if (width im =? width mask) && (height im =? height mask) then
    Some (mkImage (width im) (height im)
            (fun x y => let p := pix im x y in
                        mkRGBA (red p) (green p) (blue_band p) (pix mask x y)))
  else None.

(** ** Fonts *)

(** A bounding box is a 4-tuple; [bbox[i]] for i = 0..3. *)
Definition item0 (b : Z * Z * Z * Z) : Z := fst (fst (fst b)).
Definition item1 (b : Z * Z * Z * Z) : Z := snd (fst (fst b)).
Definition item2 (b : Z * Z * Z * Z) : Z := snd (fst b).
Definition item3 (b : Z * Z * Z * Z) : Z := snd b.

(** What the script needs from [ImageFont] and from text layout.  The bounding
    box is the one [draw.textbbox((0, 0), text, font)] returns, as
    (left, top, right, bottom); [right - left] and [bottom - top] are the
    width and height of the rendered text, so they are not negative.
    [getmask] is the coverage (0..255) of the rendered text at an offset from
    the drawing position. *)
Class FontEnv := {
  Font : Type;
  truetype : string -> Z -> option Font;
  load_default : Font;
  getbbox : Font -> string -> Z * Z * Z * Z;
  getmask : Font -> string -> Z -> Z -> Z;
  getbbox_wf : forall f s,
    item0 (getbbox f s) <= item2 (getbbox f s) /\
    item1 (getbbox f s) <= item3 (getbbox f s)
}.

(** ** Drawing *)

Section Drawing.
Context `{FE : FontEnv}.

(** A call made on an [ImageDraw] object, with its arguments. *)
Inductive DrawCall :=
| CPolygon (xy : list (Z * Z)) (fill : Fill)
| CRectangle (x0 y0 x1 y1 : Z) (fill : Fill)
| CEllipse (x0 y0 x1 y1 : Z) (fill : Fill)
| CText (x y : Z) (text : string) (fill : Fill) (font : Font).

(** [ImageDraw.Draw(img)]: the image it draws into (the object is an alias of
    [img], whose pixels every call changes in place) and, as a ghost field,
    the calls made so far, oldest first. *)
Record ImageDraw (P : Type) := mkDraw {
  target : Image P;
  calls : list DrawCall
}.
Arguments mkDraw {P}.
Arguments target {P}.
Arguments calls {P}.

Definition Draw {P} (im : Image P) : ImageDraw P := mkDraw im [].

(** Overwrite the covered pixels of the image; everything is clipped to the
    image. *)
Definition paint {P} (cover : Z -> Z -> bool) (c : P) (im : Image P) : Image P :=
  mkImage (width im) (height im)
    (fun x y => if in_bounds im x y && cover x y then c else pix im x y).

(** Pixels of [rectangle([x0, y0, x1, y1])]: both ends included. *)
Definition in_box (x0 y0 x1 y1 x y : Z) : bool :=
  (x0 <=? x) && (x <=? x1) && (y0 <=? y) && (y <=? y1).

(** Pixels of [ellipse([x0, y0, x1, y1])]: the pixels of the bounding box
    that lie in the ellipse inscribed in it.  With w = x1 - x0 and
    h = y1 - y0 the test is
    ((2x - x0 - x1) / w)^2 + ((2y - y0 - y1) / h)^2 <= 1, cleared of
    divisions. *)
Definition in_ellipse (x0 y0 x1 y1 x y : Z) : bool :=
  let w := x1 - x0 in
  let h := y1 - y0 in
  let dx := 2 * x - x0 - x1 in
  let dy := 2 * y - y0 - y1 in
  in_box x0 y0 x1 y1 x y && (dx * dx * (h * h) + dy * dy * (w * w) <=? w * w * (h * h)).

(** Pixels of [polygon(points)]: the points on an edge, and the points that
    a ray to the right leaves through an odd number of edges. *)
Definition on_segment (a b : Z * Z) (x y : Z) : bool :=
  let '(ax, ay) := a in
  let '(bx, by') := b in
  ((bx - ax) * (y - ay) =? (by' - ay) * (x - ax))
  && (Z.min ax bx <=? x) && (x <=? Z.max ax bx)
  && (Z.min ay by' <=? y) && (y <=? Z.max ay by').

Definition crosses (a b : Z * Z) (x y : Z) : bool :=
  let '(ax, ay) := a in
  let '(bx, by') := b in
  if negb (Bool.eqb (y <? ay) (y <? by')) then
    if ay <? by' then (x - ax) * (by' - ay) <? (bx - ax) * (y - ay)
    else (bx - ax) * (y - ay) <? (x - ax) * (by' - ay)
  else false.

Definition edges (pts : list (Z * Z)) : list ((Z * Z) * (Z * Z)) :=
  match pts with
  | [] => []
  | p :: rest => combine pts (rest ++ [p])
  end.

Definition in_polygon (pts : list (Z * Z)) (x y : Z) : bool :=
  existsb (fun e => on_segment (fst e) (snd e) x y) (edges pts)
  || Nat.odd (length (filter (fun e => crosses (fst e) (snd e) x y) (edges pts))).

Section Calls.
Context {P : Type} `{M : Mode P}.

Definition polygon (xy : list (Z * Z)) (fill : Fill) (d : ImageDraw P) : ImageDraw P :=
  mkDraw (paint (in_polygon xy) (ink fill) (target d))
         (calls d ++ [CPolygon xy fill]).

Definition rectangle (x0 y0 x1 y1 : Z) (fill : Fill) (d : ImageDraw P) : ImageDraw P :=
  mkDraw (paint (in_box x0 y0 x1 y1) (ink fill) (target d))
         (calls d ++ [CRectangle x0 y0 x1 y1 fill]).

Definition ellipse (x0 y0 x1 y1 : Z) (fill : Fill) (d : ImageDraw P) : ImageDraw P :=
  mkDraw (paint (in_ellipse x0 y0 x1 y1) (ink fill) (target d))
         (calls d ++ [CEllipse x0 y0 x1 y1 fill]).

(** [draw.text((x, y), text, fill=, font=)]: the ink is blended into every
    pixel of the image through the coverage of the rendered text. *)
Definition text (x y : Z) (s : string) (fill : Fill) (font : Font)
    (d : ImageDraw P) : ImageDraw P :=
  let im := target d in
  mkDraw (mkImage (width im) (height im)
            (fun px py =>
               if in_bounds im px py
               then blend (getmask font s (px - x) (py - y)) (pix im px py) (ink fill)
               else pix im px py))
         (calls d ++ [CText x y s fill font]).

End Calls.

(** [draw.textbbox((0, 0), text, font=font)]. *)
Definition textbbox (s : string) (font : Font) : Z * Z * Z * Z := getbbox font s.

(** [try: ImageFont.truetype(path, size) / except: ImageFont.load_default()]. *)
Definition truetype_or_default (path : string) (font_size : Z) : Font :=
  default load_default (truetype path font_size).

(** ** Python values used by the renderer *)

(** [range(n)] and [range(start, stop, step)] for a positive step (the script
    reaches the second form only with [step = size // 16 >= 4]). *)
Definition range (n : Z) : list Z := seqZ 0 n.

Definition range3 (start stop step : Z) : list Z :=
  if step <=? 0 then []
  else (fun k => start + k * step) <$> seqZ 0 ((stop - start + step - 1) / step).

(** A Python number: [int] or [float] (IEEE binary64). *)
Inductive num := Int (z : Z) | Float (f : float).

(** The conversion of an [int] operand of a float operation; exact for
    0 <= z < 2^53, which covers every edge length an image can have. *)
Definition float_of_int (z : Z) : float := PrimFloat.of_uint63 (Uint63.of_Z z).

(** [a / b] on two ints, and [i * f] on an int and a float. *)
Definition truediv (a b : Z) : float := PrimFloat.div (float_of_int a) (float_of_int b).
Definition int_mul_float (i : Z) (f : float) : float := PrimFloat.mul (float_of_int i) f.

(** ** create_blockbuster_icon *)

Definition blue : Fill := Fill3 0 51 153.
Definition yellow : Fill := Fill3 255 204 0.
Definition shadow : Fill := Fill4 0 0 0 128.

(** [blue + (255,)]. *)
Definition with_alpha (f : Fill) (a : Z) : Fill :=
  match f with
  | Fill3 r g b => Fill4 r g b a
  | other => other
  end.

Definition helvetica : string := "/System/Library/Fonts/Helvetica.ttc".

(** Lines 18, 19 and 24: the proportions. *)
Definition border_width (size : Z) : Z := Z.max 2 (size / 64).
Definition ticket_indent (size : Z) : Z := size / 8.
Definition num_teeth (size : Z) : Z := Z.max 8 (size / 32).

(** Lines 23 to 36: the two point lists of the jagged edges, as the two
    loops leave them. *)
Definition jagged_points (size : Z) : list (num * num) * list (num * num) :=
  let border_width := border_width size in
  let points_top : list (num * num) := [] in
  let num_teeth := num_teeth size in
  let tooth_width := truediv size num_teeth in
  let points_top :=
    fold_left (fun points_top i =>
                 let x := int_mul_float i tooth_width in
                 points_top ++ [(Float x, Int (if i mod 2 =? 0 then 0 else border_width * 2))])
              (range num_teeth) points_top in
  let points_top := points_top ++ [(Int size, Int 0)] in
  let points_bottom : list (num * num) := [] in
  let points_bottom :=
    fold_left (fun points_bottom i =>
                 let x := int_mul_float i tooth_width in
                 points_bottom ++
                   [(Float x, Int (if i mod 2 =? 0 then size else size - border_width * 2))])
              (range num_teeth) points_bottom in
  let points_bottom := points_bottom ++ [(Int size, Int size)] in
  (points_top, points_bottom).

(** Lines 38 to 70: the ticket punches, the torn (or plain) top and bottom
    edges, the left and right borders. *)
Definition draw_border (size : Z) (draw : ImageDraw RGBA) : ImageDraw RGBA :=
  let border_width := border_width size in
  let ticket_indent := ticket_indent size in
  let draw := polygon [(0, ticket_indent);
                       (border_width * 3, ticket_indent);
                       (border_width * 3, ticket_indent + size / 16);
                       (0, ticket_indent + size / 16)] yellow draw in
  let draw := polygon [(size - border_width * 3, ticket_indent);
                       (size, ticket_indent);
                       (size, ticket_indent + size / 16);
                       (size - border_width * 3, ticket_indent + size / 16)] yellow draw in
  let draw :=
    if 64 <=? size then
      fold_left (fun draw i =>
                   let tear_height := (i mod 2) * border_width + border_width in
                   let draw := rectangle i 0 (i + size / 16) tear_height yellow draw in
                   rectangle i (size - tear_height) (i + size / 16) size yellow draw)
                (range3 0 size (size / 16)) draw
    else
      let draw := rectangle 0 0 size border_width yellow draw in
      rectangle 0 (size - border_width) size size yellow draw in
  let draw := rectangle 0 0 (border_width * 2) size yellow draw in
  rectangle (size - border_width * 2) 0 size size yellow draw.

(** Lines 72 to 124: the text, by size. *)
Definition draw_labels (size : Z) (draw : ImageDraw RGBA) : ImageDraw RGBA :=
  if 128 <=? size then
    let font_size := size / 8 in
    let font := truetype_or_default helvetica font_size in
    let text_ := "N64" in
    let bbox := textbbox text_ font in
    let text_width := item2 bbox - item0 bbox in
    let text_height := item3 bbox - item1 bbox in
    let text_x := (size - text_width) / 2 in
    let text_y := size / 3 in
    let draw := text (text_x + 2) (text_y + 2) text_ shadow font draw in
    let draw := text text_x text_y text_ yellow font draw in
    if 256 <=? size then
      let font_size_small := size / 16 in
      let font_small := truetype_or_default helvetica font_size_small in
      let text2 := "EMULATOR" in
      let bbox2 := textbbox text2 font_small in
      let text2_width := item2 bbox2 - item0 bbox2 in
      let text2_x := (size - text2_width) / 2 in
      let text2_y := text_y + text_height + size / 20 in
      let draw := text (text2_x + 1) (text2_y + 1) text2 shadow font_small draw in
      text text2_x text2_y text2 yellow font_small draw
    else draw
  else if 32 <=? size then
    let font := truetype_or_default helvetica (size / 4) in
    let text_ := "N64" in
    let bbox := textbbox text_ font in
    let text_width := item2 bbox - item0 bbox in
    let text_height := item3 bbox - item1 bbox in
    let text_x := (size - text_width) / 2 in
    let text_y := (size - text_height) / 2 in
    text text_x text_y text_ yellow font draw
  else draw.

(** Lines 130 to 138: the alpha mask, and the calls made on [mask_draw]. *)
Definition corner_mask (size : Z) : option (ImageDraw Z) :=
  let radius := size / 8 in
  mask ← Image_new size size (ink (Fill1 255));
  let mask_draw := Draw mask in
  let mask_draw := rectangle 0 0 size size (Fill1 255) mask_draw in
  let mask_draw := ellipse 0 0 (radius * 2) (radius * 2) (Fill1 0) mask_draw in
  let mask_draw := ellipse (size - radius * 2) 0 size (radius * 2) (Fill1 0) mask_draw in
  let mask_draw := ellipse 0 (size - radius * 2) (radius * 2) size (Fill1 0) mask_draw in
  Some (ellipse (size - radius * 2) (size - radius * 2) size size (Fill1 0) mask_draw).

(** What a run of the function leaves behind: the returned [img], the calls
    made on [draw] and on [mask_draw], and the two point lists. *)
Record Rendered := mkRendered {
  returned : Image RGBA;
  draw_calls : list DrawCall;
  mask_calls : list DrawCall;
  points_top : list (num * num);
  points_bottom : list (num * num)
}.

(** The whole function, statement by statement. *)
Definition create_blockbuster_icon_body (size : Z) : option Rendered :=
  img ← Image_new size size (ink (with_alpha blue 255));
  let draw := Draw img in
  let points := jagged_points size in
  let points_top := fst points in
  let points_bottom := snd points in
  let draw := draw_border size draw in
  let draw := draw_labels size draw in
  let img := target draw in
  if 64 <=? size then
    mask_draw ← corner_mask size;
    img ← putalpha img (target mask_draw);
    Some (mkRendered img (calls draw) (calls mask_draw) points_top points_bottom)
  else
    Some (mkRendered img (calls draw) [] points_top points_bottom).

(** [create_blockbuster_icon(size)]: the image it returns. *)
Definition create_blockbuster_icon (size : Z) : option (Image RGBA) :=
  returned <$> create_blockbuster_icon_body size.


End Drawing.

Arguments mkDraw {FE P}.
Arguments target {FE P}.
Arguments calls {FE P}.

(** ** The icon-set builder *)

Section Builder.
Context `{FE : FontEnv}.

(** What the script does to the outside world, in the order it does it. *)
Inductive Event :=
| EMakedirs (path : string)
| EPrint (line : string)
| ESave (path : string) (img : Image RGBA)
| EWrite (path : string) (data : string)
| ESystem (command : string).

(** The content of a file: an image saved as PNG, or the text written. *)
Inductive Content :=
| PNG (img : Image RGBA)
| Bytes (data : string).

(** The file system the script writes into, and the trace of its effects,
    oldest first. *)
Record World := mkWorld {
  files : gmap string Content;
  events : list Event
}.


(** The effect of one event on the files.  An existing file is overwritten.
    What the external [iconutil] does is outside the model. *)
Definition apply_event (e : Event) (fs : gmap string Content) : gmap string Content :=
  match e with
  | ESave path img => <[path := PNG img]> fs
  | EWrite path data => <[path := Bytes data]> fs
  | EMakedirs _ | EPrint _ | ESystem _ => fs
  end.

Definition emit (e : Event) (w : World) : World :=
  mkWorld (apply_event e (files w)) (events w ++ [e]).

(** [os.makedirs(path, exist_ok=True)], [print(line)], [icon.save(path, 'PNG')],
    [open(path, 'w').write(data)], [os.system(command)]. *)
Definition makedirs (path : string) : World -> World := emit (EMakedirs path).
Definition print (line : string) : World -> World := emit (EPrint line).
Definition save (img : Image RGBA) (path : string) : World -> World := emit (ESave path img).
Definition write (path data : string) : World -> World := emit (EWrite path data).
Definition system (command : string) : World -> World := emit (ESystem command).

(** [os.path.join(a, b)] for a relative [b]. *)
Definition path_join (a b : string) : string := a +:+ "/" +:+ b.

(** [str(n)] of an int, as an f-string formats it. *)
Definition str (n : Z) : string := pretty n.

(** A [for] loop whose body can raise. *)
Fixpoint for_each {A S : Type} (body : S -> A -> option S) (xs : list A) (s : S) : option S :=
  match xs with
  | [] => Some s
  | x :: rest => s' ← body s x; for_each body rest s'
  end.

Definition dq : string := String "034"%char "".
Definition nl : string := String "010"%char "".
Definition q (s : string) : string := dq +:+ s +:+ dq.
Definition unlines (ls : list string) : string :=
  foldr (fun l acc => l +:+ nl +:+ acc) "" ls.

(** Lines 172 to 240: the manifest literal, line by line. *)
Definition contents_json : string :=
  unlines [
    "{";
    "  " +:+ q "images" +:+ " : [";
    "    {";
    "      " +:+ q "filename" +:+ " : " +:+ q "icon_16x16.png" +:+ ",";
    "      " +:+ q "idiom" +:+ " : " +:+ q "mac" +:+ ",";
    "      " +:+ q "scale" +:+ " : " +:+ q "1x" +:+ ",";
    "      " +:+ q "size" +:+ " : " +:+ q "16x16";
    "    },";
    "    {";
    "      " +:+ q "filename" +:+ " : " +:+ q "icon_16x16@2x.png" +:+ ",";
    "      " +:+ q "idiom" +:+ " : " +:+ q "mac" +:+ ",";
    "      " +:+ q "scale" +:+ " : " +:+ q "2x" +:+ ",";
    "      " +:+ q "size" +:+ " : " +:+ q "16x16";
    "    },";
    "    {";
    "      " +:+ q "filename" +:+ " : " +:+ q "icon_32x32.png" +:+ ",";
    "      " +:+ q "idiom" +:+ " : " +:+ q "mac" +:+ ",";
    "      " +:+ q "scale" +:+ " : " +:+ q "1x" +:+ ",";
    "      " +:+ q "size" +:+ " : " +:+ q "32x32";
    "    },";
    "    {";
    "      " +:+ q "filename" +:+ " : " +:+ q "icon_32x32@2x.png" +:+ ",";
    "      " +:+ q "idiom" +:+ " : " +:+ q "mac" +:+ ",";
    "      " +:+ q "scale" +:+ " : " +:+ q "2x" +:+ ",";
    "      " +:+ q "size" +:+ " : " +:+ q "32x32";
    "    },";
    "    {";
    "      " +:+ q "filename" +:+ " : " +:+ q "icon_128x128.png" +:+ ",";
    "      " +:+ q "idiom" +:+ " : " +:+ q "mac" +:+ ",";
    "      " +:+ q "scale" +:+ " : " +:+ q "1x" +:+ ",";
    "      " +:+ q "size" +:+ " : " +:+ q "128x128";
    "    },";
    "    {";
    "      " +:+ q "filename" +:+ " : " +:+ q "icon_128x128@2x.png" +:+ ",";
    "      " +:+ q "idiom" +:+ " : " +:+ q "mac" +:+ ",";
    "      " +:+ q "scale" +:+ " : " +:+ q "2x" +:+ ",";
    "      " +:+ q "size" +:+ " : " +:+ q "128x128";
    "    },";
    "    {";
    "      " +:+ q "filename" +:+ " : " +:+ q "icon_256x256.png" +:+ ",";
    "      " +:+ q "idiom" +:+ " : " +:+ q "mac" +:+ ",";
    "      " +:+ q "scale" +:+ " : " +:+ q "1x" +:+ ",";
    "      " +:+ q "size" +:+ " : " +:+ q "256x256";
    "    },";
    "    {";
    "      " +:+ q "filename" +:+ " : " +:+ q "icon_256x256@2x.png" +:+ ",";
    "      " +:+ q "idiom" +:+ " : " +:+ q "mac" +:+ ",";
    "      " +:+ q "scale" +:+ " : " +:+ q "2x" +:+ ",";
    "      " +:+ q "size" +:+ " : " +:+ q "256x256";
    "    },";
    "    {";
    "      " +:+ q "filename" +:+ " : " +:+ q "icon_512x512.png" +:+ ",";
    "      " +:+ q "idiom" +:+ " : " +:+ q "mac" +:+ ",";
    "      " +:+ q "scale" +:+ " : " +:+ q "1x" +:+ ",";
    "      " +:+ q "size" +:+ " : " +:+ q "512x512";
    "    },";
    "    {";
    "      " +:+ q "filename" +:+ " : " +:+ q "icon_512x512@2x.png" +:+ ",";
    "      " +:+ q "idiom" +:+ " : " +:+ q "mac" +:+ ",";
    "      " +:+ q "scale" +:+ " : " +:+ q "2x" +:+ ",";
    "      " +:+ q "size" +:+ " : " +:+ q "512x512";
    "    }";
    "  ],";
    "  " +:+ q "info" +:+ " : {";
    "    " +:+ q "author" +:+ " : " +:+ q "xcode" +:+ ",";
    "    " +:+ q "version" +:+ " : 1";
    "  }";
    "}"
  ].

Definition output_dir : string := "Resources/AppIcon.appiconset".
Definition sizes : list Z := [16; 32; 64; 128; 256; 512; 1024].

Definition filename_of (size : Z) : string :=
  "icon_" +:+ str size +:+ "x" +:+ str size +:+ ".png".
Definition filename_2x_of (size : Z) : string :=
  "icon_" +:+ str size +:+ "x" +:+ str size +:+ "@2x.png".

(** Lines 156 to 169: the body of the loop over [sizes]. *)
Definition main_loop (w : World) (size : Z) : option World :=
  icon ← create_blockbuster_icon size;
  let filename := filename_of size in
  let filepath := path_join output_dir filename in
  let w := save icon filepath w in
  let w := print ("✅ Created " +:+ filename) w in
  if size <=? 512 then
    let filename_2x := filename_2x_of size in
    let filepath_2x := path_join output_dir filename_2x in
    icon_2x ← create_blockbuster_icon (size * 2);
    let w := save icon_2x filepath_2x w in
    Some (print ("✅ Created " +:+ filename_2x) w)
  else Some w.

Definition main (w : World) : option World :=
  let w := makedirs output_dir w in
  let w := print "Generating Blockbuster-style icons..." w in
  w ← for_each main_loop sizes w;
  let contents_path := path_join output_dir "Contents.json" in
  let w := write contents_path contents_json w in
  let w := print "✅ Created Contents.json" w in
  let w := print (nl +:+ "Generating .icns file...") w in
  let w := system "cd Resources && iconutil -c icns AppIcon.appiconset -o AppIcon.icns" w in
  let w := print "✅ Created AppIcon.icns" w in
  let w := print (nl +:+ "🎉 Icon set complete! Files created in Resources/AppIcon.appiconset/") w in
  let w := print "📦 To use in your app, add AppIcon.icns to your Xcode project." w in
  Some w.

(** ** Reading the run *)

(** The paths of the images saved and of the text files written, in order. *)
Definition saved_paths (tr : list Event) : list string :=
  omap (fun e => match e with ESave p _ => Some p | _ => None end) tr.

Definition written_text (tr : list Event) : list (string * string) :=
  omap (fun e => match e with EWrite p d => Some (p, d) | _ => None end) tr.

Definition written_paths (tr : list Event) : list string :=
  omap (fun e => match e with
                 | ESave p _ | EWrite p _ => Some p
                 | _ => None
                 end) tr.

(** Suffix test on strings, and the three kinds of output file. *)
Definition ends_with (suffix s : string) : bool :=
  let n := String.length s in
  let k := String.length suffix in
  (k <=? n)%nat && String.eqb (String.substring (n - k) k s) suffix.

Definition is_double_density (path : string) : bool := ends_with "@2x.png" path.
Definition is_standard_density (path : string) : bool :=
  ends_with ".png" path && negb (is_double_density path).
Definition is_manifest (path : string) : bool := ends_with "/Contents.json" path.

(** The values of the string members named [key] in a manifest text, in
    order: what follows each occurrence of the quoted key, a colon between
    two spaces and an opening quote, up to the closing quote. *)
Fixpoint strip_prefix (pre s : string) : option string :=
  match pre, s with
  | EmptyString, _ => Some s
  | String a pre', String b s' => if Ascii.eqb a b then strip_prefix pre' s' else None
  | String _ _, EmptyString => None
  end.

Fixpoint up_to_quote (s : string) : string :=
  match s with
  | EmptyString => EmptyString
  | String c rest => if Ascii.eqb c "034" then EmptyString else String c (up_to_quote rest)
  end.

Fixpoint member_values (key s : string) : list string :=
  match s with
  | EmptyString => []
  | String _ rest =>
      match strip_prefix (q key +:+ " : " +:+ dq) s with
      | Some value => up_to_quote value :: member_values key rest
      | None => member_values key rest
      end
  end.

Definition manifest_filenames : list string := member_values "filename" contents_json.

End Builder.

(** ** A concrete font environment

    A fixed-cell font: a font is its nominal pixel size, every character
    fills a cell half as wide as the font is high, loading fails for a size
    that is not positive, and the built-in default is 10 pixels high.  It
    instantiates the font-generic results at concrete inputs. *)
Definition cell_bbox (f : nat) (s : string) : Z * Z * Z * Z :=
  (0, 0, Z.of_nat (f / 2 * String.length s), Z.of_nat f).

Definition cell_mask (f : nat) (s : string) (dx dy : Z) : Z :=
  if in_box 0 0 (item2 (cell_bbox f s) - 1) (item3 (cell_bbox f s) - 1) dx dy
  then 255 else 0.

Definition cell_fonts : FontEnv := {|
  Font := nat;
  truetype _ font_size := if 0 <? font_size then Some (Z.to_nat font_size) else None;
  load_default := 10%nat;
  getbbox := cell_bbox;
  getmask := cell_mask;
  getbbox_wf := ltac:(intros f s; unfold cell_bbox, item0, item1, item2, item3; simpl; lia)
|}.

(** The world before the first run, the effect of a whole trace, and the
    trace of a run of [main]. *)
Definition empty_world : World := mkWorld ∅ [].

Definition emit_all (tr : list Event) (w : World) : World :=
  fold_left (fun w e => emit e w) tr w.

Definition apply_all (tr : list Event) (fs : gmap string Content) : gmap string Content :=
  fold_left (fun fs e => apply_event e fs) tr fs.

Definition main_trace `{FE : FontEnv} : list Event :=
  default [] (events <$> main empty_world).

(** The last content a trace gives to a path, if it writes it at all. *)
Definition write_of (e : Event) (k : string) : option Content :=
  match e with
  | ESave p img => if decide (p = k) then Some (PNG img) else None
  | EWrite p d => if decide (p = k) then Some (Bytes d) else None
  | EMakedirs _ | EPrint _ | ESystem _ => None
  end.

Fixpoint last_write (tr : list Event) (k : string) : option Content :=
  match tr with
  | [] => None
  | e :: rest =>
      match last_write rest k with
      | Some c => Some c
      | None => write_of e k
      end
  end.

(** How many standard-density images, double-density images and manifests a
    list of written paths holds. *)
Definition file_counts (paths : list string) : nat * nat * nat :=
  (length (List.filter is_standard_density paths),
   length (List.filter is_double_density paths),
   length (List.filter is_manifest paths)).

(** Text calls, and the labels among them (the text drawn in yellow; the
    shadows are drawn in translucent black). *)
Definition is_text `{FE : FontEnv} (c : DrawCall) : bool :=
  match c with CText _ _ _ _ _ => true | _ => false end.

Definition text_calls `{FE : FontEnv} (cs : list DrawCall) : list DrawCall :=
  List.filter is_text cs.

(** The palette of the background and the border, as pixels. *)
Definition blue_pixel : RGBA := mkRGBA 0 51 153 255.
Definition yellow_pixel : RGBA := mkRGBA 255 204 0 255.

(** An image without any transparency. *)
Definition opaque (im : Image RGBA) : Prop := forall x y, alpha (pix im x y) = 255.

(** The alpha of a pixel of the image, as [img.getpixel((x, y))[3]]. *)
Definition alpha_at (im : Image RGBA) (x y : Z) : option Z := alpha <$> getpixel im x y.

(** An image in the two colours of the background and the border. *)
Definition two_tone (im : Image RGBA) : Prop :=
  forall x y, pix im x y = blue_pixel \/ pix im x y = yellow_pixel.

(** Every label [s] drawn at (x, y) comes with a shadow drawn at
    (x + k, y + k) in the same font. *)
Definition label_shadowed_by `{FE : FontEnv} (k : Z) (s : string) (cs : list DrawCall) : Prop :=
  forall x y font,
    In (CText x y s yellow font) cs -> In (CText (x + k) (y + k) s shadow font) cs.

(** The text calls of each size range, with the positions the function
    computes. *)
Definition labels_of `{FE : FontEnv} (size : Z) : list DrawCall :=
  if 128 <=? size then
    let font := truetype_or_default helvetica (size / 8) in
    let bbox := textbbox "N64" font in
    let text_x := (size - (item2 bbox - item0 bbox)) / 2 in
    let text_y := size / 3 in
    [CText (text_x + 2) (text_y + 2) "N64" shadow font; CText text_x text_y "N64" yellow font]
    ++ (if 256 <=? size then
          let font_small := truetype_or_default helvetica (size / 16) in
          let bbox2 := textbbox "EMULATOR" font_small in
          let text2_x := (size - (item2 bbox2 - item0 bbox2)) / 2 in
          let text2_y := text_y + (item3 bbox - item1 bbox) + size / 20 in
          [CText (text2_x + 1) (text2_y + 1) "EMULATOR" shadow font_small;
           CText text2_x text2_y "EMULATOR" yellow font_small]
        else [])
  else if 32 <=? size then
    let font := truetype_or_default helvetica (size / 4) in
    let bbox := textbbox "N64" font in
    [CText ((size - (item2 bbox - item0 bbox)) / 2) ((size - (item3 bbox - item1 bbox)) / 2)
       "N64" yellow font]
  else [].

(** A step of the builder that does not look at the world: it succeeds and
    adds the same events wherever it starts. *)
Definition uniform (f : World -> option World) : Prop :=
  exists tr, forall w, f w = Some (emit_all tr w).

Definition contents_path : string := path_join output_dir "Contents.json".

(** The files the loop of [main] is to write, in order. *)
Definition expected_paths : list string :=
  flat_map (fun size =>
              path_join output_dir (filename_of size)
              :: (if size <=? 512 then [path_join output_dir (filename_2x_of size)] else []))
           sizes
  ++ [contents_path].

(** ** Descriptions used by the further properties *)

(** The two calls of one round of the tear loop (lines 59 to 62). *)
Definition tear_calls `{FE : FontEnv} (size i : Z) : list DrawCall :=
  let tear_height := (i mod 2) * border_width size + border_width size in
  [CRectangle i 0 (i + size / 16) tear_height yellow;
   CRectangle i (size - tear_height) (i + size / 16) size yellow].

(** The calls that draw the border (lines 40 to 70), in order. *)
Definition border_calls `{FE : FontEnv} (size : Z) : list DrawCall :=
  [CPolygon [(0, ticket_indent size);
             (border_width size * 3, ticket_indent size);
             (border_width size * 3, ticket_indent size + size / 16);
             (0, ticket_indent size + size / 16)] yellow;
   CPolygon [(size - border_width size * 3, ticket_indent size);
             (size, ticket_indent size);
             (size, ticket_indent size + size / 16);
             (size - border_width size * 3, ticket_indent size + size / 16)] yellow]
  ++ (if 64 <=? size then flat_map (tear_calls size) (range3 0 size (size / 16))
      else [CRectangle 0 0 size (border_width size) yellow;
            CRectangle 0 (size - border_width size) size size yellow])
  ++ [CRectangle 0 0 (border_width size * 2) size yellow;
      CRectangle (size - border_width size * 2) 0 size size yellow].

(** Width and height of a rendered text, as the function computes them from
    the bounding box. *)
Definition text_width `{FE : FontEnv} (font : Font) (s : string) : Z :=
  item2 (textbbox s font) - item0 (textbbox s font).
Definition text_height `{FE : FontEnv} (font : Font) (s : string) : Z :=
  item3 (textbbox s font) - item1 (textbbox s font).


(** The fixed-cell fonts on a machine without the Helvetica file: every
    [truetype] call fails. *)
Definition cell_fonts_without_helvetica : FontEnv := {|
  Font := nat;
  truetype _ _ := None;
  load_default := 10%nat;
  getbbox := cell_bbox;
  getmask := cell_mask;
  getbbox_wf := ltac:(intros f s; unfold cell_bbox, item0, item1, item2, item3; simpl; lia)
|}.

(** The image [create_blockbuster_icon(size)] returns, for a size it
    returns one for (an empty image stands in otherwise). *)
Definition icon_of `{FE : FontEnv} (size : Z) : Image RGBA :=
  default (mkImage 0 0 (fun _ _ => blue_pixel)) (create_blockbuster_icon size).

(** The events of one round of the loop of [main] and of a whole run, given
    the image rendered for each size. *)
Definition loop_events (icon : Z -> Image RGBA) (size : Z) : list Event :=
  [ESave (path_join output_dir (filename_of size)) (icon size);
   EPrint ("✅ Created " +:+ filename_of size)]
  ++ (if size <=? 512 then
        [ESave (path_join output_dir (filename_2x_of size)) (icon (size * 2));
         EPrint ("✅ Created " +:+ filename_2x_of size)]
      else []).

Definition iconutil_command : string :=
  "cd Resources && iconutil -c icns AppIcon.appiconset -o AppIcon.icns".

Definition run_events (icon : Z -> Image RGBA) : list Event :=
  [EMakedirs output_dir; EPrint "Generating Blockbuster-style icons..."]
  ++ flat_map (loop_events icon) sizes
  ++ [EWrite contents_path contents_json;
      EPrint "✅ Created Contents.json";
      EPrint (nl +:+ "Generating .icns file...");
      ESystem iconutil_command;
      EPrint "✅ Created AppIcon.icns";
      EPrint (nl +:+ "🎉 Icon set complete! Files created in Resources/AppIcon.appiconset/");
      EPrint "📦 To use in your app, add AppIcon.icns to your Xcode project."].

(** The commands a trace hands to the shell, in order. *)
Definition commands (tr : list Event) : list string :=
  omap (fun e => match e with ESystem c => Some c | _ => None end) tr.

(** The saved images that a list of manifest names leaves out. *)
Definition unreferenced (names saved : list string) : list string :=
  List.filter (fun p => negb (existsb (String.eqb p) (map (path_join output_dir) names))) saved.

Definition has_slash (s : string) : bool :=
  existsb (Ascii.eqb "/") (list_ascii_of_string s).

(** * The model on concrete inputs *)

(** The manifest literal is 1301 bytes long and names ten files. *)
Example contents_json_length : String.length contents_json = 1301%nat.
Proof. vm_compute. reflexivity. Qed.

Example manifest_filenames_value :
  manifest_filenames =
    ["icon_16x16.png"; "icon_16x16@2x.png"; "icon_32x32.png"; "icon_32x32@2x.png";
     "icon_128x128.png"; "icon_128x128@2x.png"; "icon_256x256.png"; "icon_256x256@2x.png";
     "icon_512x512.png"; "icon_512x512@2x.png"].
Proof. vm_compute. reflexivity. Qed.

(** The proportions at both ends of the fixed list. *)
Example proportions_16 : (border_width 16, ticket_indent 16, num_teeth 16) = (2, 2, 8).
Proof. reflexivity. Qed.

Example proportions_1024 : (border_width 1024, ticket_indent 1024, num_teeth 1024) = (16, 128, 32).
Proof. reflexivity. Qed.

(** The point lists at 16 pixels: eight teeth two pixels apart, and the
    closing point. *)
Example jagged_points_16 :
  jagged_points 16 =
    ([(Float 0, Int 0); (Float 2, Int 4); (Float 4, Int 0); (Float 6, Int 4);
      (Float 8, Int 0); (Float 10, Int 4); (Float 12, Int 0); (Float 14, Int 4);
      (Int 16, Int 0)],
     [(Float 0, Int 16); (Float 2, Int 12); (Float 4, Int 16); (Float 6, Int 12);
      (Float 8, Int 16); (Float 10, Int 12); (Float 12, Int 16); (Float 14, Int 12);
      (Int 16, Int 16)]).
Proof. vm_compute. reflexivity. Qed.

(** The calls made on draw at 16 pixels. *)
Example draw_calls_16 :
  draw_calls <$> create_blockbuster_icon_body (FE := cell_fonts) 16 =
    Some [CPolygon [(0, 2); (6, 2); (6, 3); (0, 3)] yellow;
          CPolygon [(10, 2); (16, 2); (16, 3); (10, 3)] yellow;
          CRectangle 0 0 16 2 yellow;
          CRectangle 0 14 16 16 yellow;
          CRectangle 0 0 4 16 yellow;
          CRectangle 12 0 16 16 yellow].
Proof. vm_compute. reflexivity. Qed.

(** The first ticket punch at 16 pixels covers the pixels of its box. *)
Example ticket_punch_16_is_a_box :
  forallb (fun x =>
             forallb (fun y =>
                        Bool.eqb (in_polygon [(0, 2); (6, 2); (6, 3); (0, 3)] x y)
                                 (in_box 0 2 6 3 x y))
                     (seqZ (-2) 20))
          (seqZ (-2) 20) = true.
Proof. vm_compute. reflexivity. Qed.

(** The range of the tear loop at 64 pixels. *)
Example tear_range_64 :
  range3 0 64 (64 / 16) = [0; 4; 8; 12; 16; 20; 24; 28; 32; 36; 40; 44; 48; 52; 56; 60].
Proof. vm_compute. reflexivity. Qed.

(** Pixels of the icon of 64 pixels: the corner is opaque yellow, the centre
    of the first disc is transparent. *)
Example icon_64_pixels :
  (fun img => (getpixel img 0 0, alpha_at img 8 8, getpixel img 64 0))
    <$> create_blockbuster_icon (FE := cell_fonts) 64
  = Some (Some yellow_pixel, Some 0, None).
Proof. vm_compute. reflexivity. Qed.

(** * Properties of the renderer *)

Section RendererFacts.
Context `{FE : FontEnv}.

Lemma Image_new_Some {P} (w h : Z) (c : P) :
  0 <= w -> 0 <= h -> Image_new w h c = Some (mkImage w h (fun _ _ => c)).
Proof.
  intros Hw Hh. unfold Image_new.
  destruct (w <? 0) eqn:Ew; [apply Z.ltb_lt in Ew; lia|].
  destruct (h <? 0) eqn:Eh; [apply Z.ltb_lt in Eh; lia|].
  reflexivity.
Qed.

(** An invariant of the image that every step of a loop keeps is kept by
    the loop. *)
Lemma fold_left_keeps {A B} (I : B -> Prop) (f : B -> A -> B) (xs : list A) (b : B) :
  (forall b x, I b -> I (f b x)) -> I b -> I (fold_left f xs b).
Proof.
  intros Hstep. revert b. induction xs as [|x xs IH]; simpl; intros b Hb.
  - exact Hb.
  - apply IH, Hstep, Hb.
Qed.

(** Both border drawing and label drawing keep the size of the image. *)
Lemma draw_border_size (size : Z) (d : ImageDraw RGBA) :
  width (target (draw_border size d)) = width (target d) /\
  height (target (draw_border size d)) = height (target d).
Proof.
  unfold draw_border.
  destruct (64 <=? size); simpl.
  - apply (fold_left_keeps
             (fun d' : ImageDraw RGBA =>
                width (target d') = width (target d) /\
                height (target d') = height (target d))).
    + intros b x H. exact H.
    + split; reflexivity.
  - split; reflexivity.
Qed.

Lemma draw_labels_size (size : Z) (d : ImageDraw RGBA) :
  width (target (draw_labels size d)) = width (target d) /\
  height (target (draw_labels size d)) = height (target d).
Proof.
  unfold draw_labels.
  destruct (128 <=? size); [destruct (256 <=? size)|destruct (32 <=? size)];
    split; reflexivity.
Qed.

Lemma corner_mask_Some (size : Z) :
  0 <= size ->
  exists md, corner_mask size = Some md /\
             width (target md) = size /\ height (target md) = size.
Proof.
  intros Hs. unfold corner_mask. rewrite (Image_new_Some size size) by lia.
  simpl. eexists; split; [reflexivity|]. split; reflexivity.
Qed.

(** The function returns for every size that is not negative, and the
    returned image has that size. *)
Lemma body_Some (size : Z) :
  0 <= size ->
  exists r, create_blockbuster_icon_body size = Some r /\
            width (returned r) = size /\ height (returned r) = size.
Proof.
  intros Hs. unfold create_blockbuster_icon_body.
  rewrite (Image_new_Some size size) by lia. simpl.
  set (d := draw_labels size (draw_border size (Draw _))).
  assert (Hd : width (target d) = size /\ height (target d) = size).
  { subst d.
    match goal with
    | |- context [draw_border size ?d0] =>
        destruct (draw_labels_size size (draw_border size d0)) as [Hw Hh];
        destruct (draw_border_size size d0) as [Hw' Hh']
    end.
    rewrite Hw, Hh, Hw', Hh'. split; reflexivity. }
  destruct Hd as [Hw Hh].
  destruct (64 <=? size).
  - destruct (corner_mask_Some size Hs) as (md & Hmd & Hmw & Hmh).
    rewrite Hmd. simpl. unfold putalpha. rewrite Hw, Hh, Hmw, Hmh.
    rewrite !Z.eqb_refl. simpl. eexists; split; [reflexivity|]. split; reflexivity.
  - eexists; split; [reflexivity|]. simpl. split; assumption.
Qed.

End RendererFacts.

(** * The alpha channel *)

Section AlphaFacts.
Context `{FE : FontEnv}.

(** Blending opaque ink into an opaque pixel leaves it opaque, whatever the
    coverage. *)
Lemma blend8_opaque (m : Z) : blend8 m 255 255 = 255.
Proof.
  unfold blend8. replace (255 * (255 - m) + 255 * m) with 65025 by lia.
  reflexivity.
Qed.

Lemma paint_opaque cover (c : RGBA) (im : Image RGBA) :
  alpha c = 255 -> opaque im -> opaque (paint cover c im).
Proof.
  intros Hc Him x y. unfold paint; simpl.
  destruct (in_bounds im x y && cover x y); [exact Hc | apply Him].
Qed.

Lemma text_yellow_opaque x y s font (d : ImageDraw RGBA) :
  opaque (target d) -> opaque (target (text x y s yellow font d)).
Proof.
  intros Hd px py. unfold text; simpl.
  destruct (in_bounds (target d) px py); [|apply Hd].
  simpl. rewrite Hd. apply blend8_opaque.
Qed.

Lemma draw_border_opaque (size : Z) (d : ImageDraw RGBA) :
  opaque (target d) -> opaque (target (draw_border size d)).
Proof.
  intros Hd. unfold draw_border.
  repeat (apply paint_opaque; [reflexivity|]).
  destruct (64 <=? size).
  - apply (fold_left_keeps (fun d' : ImageDraw RGBA => opaque (target d'))).
    + intros b i Hb. repeat (apply paint_opaque; [reflexivity|]). exact Hb.
    + repeat (apply paint_opaque; [reflexivity|]). exact Hd.
  - repeat (apply paint_opaque; [reflexivity|]). exact Hd.
Qed.

Lemma draw_labels_small_opaque (size : Z) (d : ImageDraw RGBA) :
  size < 128 -> opaque (target d) -> opaque (target (draw_labels size d)).
Proof.
  intros Hs Hd. unfold draw_labels.
  destruct (128 <=? size) eqn:E; [apply Z.leb_le in E; lia|].
  destruct (32 <=? size); [|exact Hd].
  apply text_yellow_opaque, Hd.
Qed.

(** Below 64 pixels the returned image is opaque everywhere. *)
Lemma small_icon_opaque (size : Z) :
  0 <= size < 64 ->
  exists img, create_blockbuster_icon size = Some img /\ opaque img.
Proof.
  intros [H0 H64]. unfold create_blockbuster_icon, create_blockbuster_icon_body.
  rewrite (Image_new_Some size size) by lia. simpl.
  destruct (64 <=? size) eqn:E; [apply Z.leb_le in E; lia|].
  simpl. eexists; split; [reflexivity|].
  apply draw_labels_small_opaque; [lia|].
  apply draw_border_opaque. intros x y. reflexivity.
Qed.

(** From 64 pixels on, the alpha of the returned image is the mask. *)
Lemma rounded_icon_alpha (size : Z) :
  64 <= size ->
  exists img md,
    create_blockbuster_icon size = Some img /\ corner_mask size = Some md /\
    width img = size /\ height img = size /\
    forall x y, alpha (pix img x y) = pix (target md) x y.
Proof.
  intros Hs.
  destruct (body_Some size) as (r & Hr & Hw & Hh); [lia|].
  destruct (corner_mask_Some size) as (md & Hmd & _); [lia|].
  exists (returned r), md. unfold create_blockbuster_icon. rewrite Hr.
  repeat split; auto.
  intros x y. unfold create_blockbuster_icon_body in Hr.
  rewrite (Image_new_Some size size) in Hr by lia. simpl in Hr.
  destruct (64 <=? size) eqn:E; [|apply Z.leb_gt in E; lia].
  rewrite Hmd in Hr. simpl in Hr.
  unfold putalpha in Hr.
  destruct (_ && _) in Hr; simpl in Hr; [|discriminate].
  injection Hr as <-. reflexivity.
Qed.

(** The mask: 255 wherever none of the four ellipses covers the pixel, and
    0 inside the image wherever one does. *)
Lemma corner_mask_pix (size : Z) (md : ImageDraw Z) (x y : Z) :
  corner_mask size = Some md ->
  let r := size / 8 in
  let covered :=
    in_ellipse 0 0 (r * 2) (r * 2) x y
    || in_ellipse (size - r * 2) 0 size (r * 2) x y
    || in_ellipse 0 (size - r * 2) (r * 2) size x y
    || in_ellipse (size - r * 2) (size - r * 2) size size x y in
  pix (target md) x y =
    if (0 <=? x) && (x <? size) && (0 <=? y) && (y <? size) && covered then 0 else 255.
Proof.
  intros Hmd r covered. subst covered r. unfold corner_mask in Hmd.
  unfold Image_new in Hmd. destruct (_ || _) in Hmd; [discriminate|].
  simpl in Hmd. injection Hmd as <-. simpl. unfold in_bounds; simpl.
  destruct ((0 <=? x) && (x <? size) && (0 <=? y) && (y <? size)); simpl.
  - destruct (in_ellipse (size - size / 8 * 2) (size - size / 8 * 2) size size x y);
      [rewrite !orb_true_r; reflexivity|].
    destruct (in_ellipse 0 (size - size / 8 * 2) (size / 8 * 2) size x y);
      [rewrite !orb_true_r; reflexivity|].
    destruct (in_ellipse (size - size / 8 * 2) 0 size (size / 8 * 2) x y);
      [rewrite !orb_true_r; reflexivity|].
    destruct (in_ellipse 0 0 (size / 8 * 2) (size / 8 * 2) x y); simpl; [reflexivity|].
    destruct (in_box 0 0 size size x y); reflexivity.
  - reflexivity.
Qed.

(** A pixel outside the bounding box is outside the ellipse; and for a
    circle of diameter u, so is a pixel whose doubled offset from the centre
    is longer than u. *)
Lemma in_ellipse_outside_box (x0 y0 x1 y1 x y : Z) :
  x < x0 \/ x1 < x \/ y < y0 \/ y1 < y -> in_ellipse x0 y0 x1 y1 x y = false.
Proof.
  intros H. unfold in_ellipse, in_box.
  destruct (Z.leb_spec x0 x); simpl; [|reflexivity].
  destruct (Z.leb_spec x x1); simpl; [|reflexivity].
  destruct (Z.leb_spec y0 y); simpl; [|reflexivity].
  destruct (Z.leb_spec y y1); simpl; [|reflexivity].
  lia.
Qed.

Lemma in_circle_false (x0 y0 x1 y1 u x y : Z) :
  0 < u -> x1 - x0 = u -> y1 - y0 = u ->
  u * u < (2 * x - x0 - x1) * (2 * x - x0 - x1) + (2 * y - y0 - y1) * (2 * y - y0 - y1) ->
  in_ellipse x0 y0 x1 y1 x y = false.
Proof.
  intros Hu Hw Hh Hfar. unfold in_ellipse. rewrite Hw, Hh.
  set (dx := 2 * x - x0 - x1) in *. set (dy := 2 * y - y0 - y1) in *.
  destruct (in_box x0 y0 x1 y1 x y); simpl; [|reflexivity].
  apply Z.leb_gt.
  replace (dx * dx * (u * u) + dy * dy * (u * u)) with ((dx * dx + dy * dy) * (u * u)) by ring.
  apply Z.mul_lt_mono_pos_r; [nia | exact Hfar].
Qed.

Lemma in_circle_true (x0 y0 x1 y1 u x y : Z) :
  0 <= u -> x1 - x0 = u -> y1 - y0 = u ->
  x0 <= x <= x1 -> y0 <= y <= y1 ->
  (2 * x - x0 - x1) * (2 * x - x0 - x1) + (2 * y - y0 - y1) * (2 * y - y0 - y1) <= u * u ->
  in_ellipse x0 y0 x1 y1 x y = true.
Proof.
  intros Hu Hw Hh Hx Hy Hnear. unfold in_ellipse, in_box. rewrite Hw, Hh.
  set (dx := 2 * x - x0 - x1) in *. set (dy := 2 * y - y0 - y1) in *.
  repeat (rewrite (proj2 (Z.leb_le _ _)) by lia). simpl.
  apply Z.leb_le.
  replace (dx * dx * (u * u) + dy * dy * (u * u)) with ((dx * dx + dy * dy) * (u * u)) by ring.
  apply Z.mul_le_mono_nonneg_r; [nia | exact Hnear].
Qed.

End AlphaFacts.

Section Corners.
Context `{FE : FontEnv}.

(** Reading the alpha of a pixel of an icon of at least 64 pixels. *)
Lemma rounded_icon_alpha_at (size x y : Z) :
  64 <= size -> 0 <= x < size -> 0 <= y < size ->
  exists img,
    create_blockbuster_icon size = Some img /\
    alpha_at img x y =
      Some (if in_ellipse 0 0 (size / 8 * 2) (size / 8 * 2) x y
               || in_ellipse (size - size / 8 * 2) 0 size (size / 8 * 2) x y
               || in_ellipse 0 (size - size / 8 * 2) (size / 8 * 2) size x y
               || in_ellipse (size - size / 8 * 2) (size - size / 8 * 2) size size x y
            then 0 else 255).
Proof.
  intros Hs Hx Hy.
  destruct (rounded_icon_alpha size Hs) as (img & md & Himg & Hmd & Hw & Hh & Ha).
  exists img. split; [exact Himg|].
  unfold alpha_at, getpixel, in_bounds. rewrite Hw, Hh.
  assert (Hb : (0 <=? x) && (x <? size) && (0 <=? y) && (y <? size) = true).
  { rewrite !andb_true_iff, !Z.leb_le, !Z.ltb_lt. lia. }
  rewrite Hb. simpl. rewrite Ha, (corner_mask_pix size md x y Hmd). simpl.
  rewrite Hb. reflexivity.
Qed.

End Corners.

(** C1, as the code has it: for every size from 64 on, the four corner
    pixels (0,0), (size-1,0), (0,size-1), (size-1,size-1) of the returned
    image are fully opaque (alpha 255), not transparent: each ellipse is
    filled with 0 inside its bounding box, and the corner of a bounding box
    lies outside its ellipse. *)
Theorem corner_pixels_stay_opaque `{FE : FontEnv} (size : Z) :
  64 <= size ->
  exists img,
    create_blockbuster_icon size = Some img /\
    alpha_at img 0 0 = Some 255 /\
    alpha_at img (size - 1) 0 = Some 255 /\
    alpha_at img 0 (size - 1) = Some 255 /\
    alpha_at img (size - 1) (size - 1) = Some 255.
Proof.
  intros Hs.
  pose proof (Z.div_mod size 8 ltac:(lia)) as Hdm.
  pose proof (Z.mod_pos_bound size 8 ltac:(lia)) as Hmb.
  set (r := size / 8) in *.
  assert (Hr : 8 <= r) by lia.
  assert (Hfit : r * 2 < size - r * 2) by lia.
  destruct (rounded_icon_alpha_at size 0 0 Hs) as (img & Himg & H00); [lia|lia|].
  destruct (rounded_icon_alpha_at size (size - 1) 0 Hs) as (img1 & Himg1 & H10); [lia|lia|].
  destruct (rounded_icon_alpha_at size 0 (size - 1) Hs) as (img2 & Himg2 & H01); [lia|lia|].
  destruct (rounded_icon_alpha_at size (size - 1) (size - 1) Hs)
    as (img3 & Himg3 & H11); [lia|lia|].
  rewrite Himg in Himg1, Himg2, Himg3.
  injection Himg1 as <-. injection Himg2 as <-. injection Himg3 as <-.
  exists img. split; [exact Himg|]. fold r in H00, H10, H01, H11.
  repeat split.
  - rewrite H00.
    rewrite (in_circle_false 0 0 (r * 2) (r * 2) (r * 2)) by nia.
    rewrite !in_ellipse_outside_box by lia. reflexivity.
  - rewrite H10.
    rewrite (in_circle_false (size - r * 2) 0 size (r * 2) (r * 2)) by nia.
    rewrite !in_ellipse_outside_box by lia. reflexivity.
  - rewrite H01.
    rewrite (in_circle_false 0 (size - r * 2) (r * 2) size (r * 2)) by nia.
    rewrite !in_ellipse_outside_box by lia. reflexivity.
  - rewrite H11.
    rewrite (in_circle_false (size - r * 2) (size - r * 2) size size (r * 2)) by nia.
    rewrite !in_ellipse_outside_box by lia. reflexivity.
Qed.

Lemma corner_pixels_stay_opaque_witness :
  64 <= 64 /\
  exists img,
    create_blockbuster_icon (FE := cell_fonts) 64 = Some img /\
    alpha_at img 0 0 = Some 255 /\
    alpha_at img (64 - 1) 0 = Some 255 /\
    alpha_at img 0 (64 - 1) = Some 255 /\
    alpha_at img (64 - 1) (64 - 1) = Some 255.
Proof.
  split; [lia | apply (corner_pixels_stay_opaque (FE := cell_fonts) 64); lia].
Defined.

(** The rest of C1 holds: the centre pixel of an icon of at least 64 pixels
    is opaque; what the mask makes transparent is the four discs, such as
    the centre of the first one. *)
Lemma centre_pixel_opaque `{FE : FontEnv} (size : Z) :
  64 <= size ->
  exists img,
    create_blockbuster_icon size = Some img /\
    alpha_at img (size / 2) (size / 2) = Some 255.
Proof.
  intros Hs.
  pose proof (Z.div_mod size 8 ltac:(lia)) as Hdm.
  pose proof (Z.mod_pos_bound size 8 ltac:(lia)) as Hmb.
  pose proof (Z.div_mod size 2 ltac:(lia)) as Hdm2.
  pose proof (Z.mod_pos_bound size 2 ltac:(lia)) as Hmb2.
  destruct (rounded_icon_alpha_at size (size / 2) (size / 2) Hs)
    as (img & Himg & Hc); [lia|lia|].
  exists img. split; [exact Himg|]. rewrite Hc.
  rewrite !in_ellipse_outside_box by lia. reflexivity.
Qed.

Lemma corner_disc_transparent `{FE : FontEnv} (size : Z) :
  64 <= size ->
  exists img,
    create_blockbuster_icon size = Some img /\
    alpha_at img (size / 8) (size / 8) = Some 0.
Proof.
  intros Hs.
  pose proof (Z.div_mod size 8 ltac:(lia)) as Hdm.
  pose proof (Z.mod_pos_bound size 8 ltac:(lia)) as Hmb.
  destruct (rounded_icon_alpha_at size (size / 8) (size / 8) Hs)
    as (img & Himg & Hc); [lia|lia|].
  exists img. split; [exact Himg|]. rewrite Hc.
  rewrite (in_circle_true 0 0 (size / 8 * 2) (size / 8 * 2) (size / 8 * 2)) by nia.
  reflexivity.
Qed.

(** * The text calls *)

Section TextFacts.
Context `{FE : FontEnv}.

Lemma text_calls_app (cs cs' : list DrawCall) :
  text_calls (cs ++ cs') = text_calls cs ++ text_calls cs'.
Proof. apply List.filter_app. Qed.

(** The border is drawn without any text call. *)
Lemma draw_border_text_calls (size : Z) (d : ImageDraw RGBA) :
  text_calls (calls (draw_border size d)) = text_calls (calls d).
Proof.
  unfold draw_border. simpl. rewrite !text_calls_app. simpl. rewrite !app_nil_r.
  destruct (64 <=? size).
  - apply (fold_left_keeps
             (fun d' : ImageDraw RGBA => text_calls (calls d') = text_calls (calls d))).
    + intros b i Hb. simpl. rewrite !text_calls_app. simpl. rewrite !app_nil_r. exact Hb.
    + simpl. rewrite !text_calls_app. simpl. rewrite !app_nil_r. reflexivity.
  - simpl. rewrite !text_calls_app. simpl. rewrite !app_nil_r. reflexivity.
Qed.

Lemma draw_labels_calls (size : Z) (d : ImageDraw RGBA) :
  calls (draw_labels size d) = calls d ++ labels_of size.
Proof.
  unfold draw_labels, labels_of.
  destruct (128 <=? size); [destruct (256 <=? size)|destruct (32 <=? size)]; simpl;
    rewrite <- ?app_assoc, ?app_nil_r; reflexivity.
Qed.

Lemma labels_of_all_text (size : Z) : text_calls (labels_of size) = labels_of size.
Proof.
  unfold labels_of.
  destruct (128 <=? size); [destruct (256 <=? size)|destruct (32 <=? size)]; reflexivity.
Qed.

(** The text calls of a whole run. *)
Lemma body_text_calls (size : Z) :
  0 <= size ->
  exists r, create_blockbuster_icon_body size = Some r /\
            text_calls (draw_calls r) = labels_of size.
Proof.
  intros Hs. destruct (body_Some size Hs) as (r & Hr & _).
  exists r. split; [exact Hr|].
  unfold create_blockbuster_icon_body in Hr.
  rewrite (Image_new_Some size size) in Hr by lia. simpl in Hr.
  assert (Hc : draw_calls r =
               calls (draw_labels size (draw_border size
                 (Draw (mkImage size size (fun _ _ => mkRGBA 0 51 153 255)))))).
  { destruct (64 <=? size).
    - destruct (corner_mask size); simpl in Hr; [|discriminate].
      destruct (putalpha _ _); simpl in Hr; [|discriminate].
      injection Hr as <-. reflexivity.
    - injection Hr as <-. reflexivity. }
  rewrite Hc, draw_labels_calls, text_calls_app, draw_border_text_calls, labels_of_all_text.
  reflexivity.
Qed.

Lemma in_text_calls (c : DrawCall) (cs : list DrawCall) :
  In c (text_calls cs) <-> In c cs /\ is_text c = true.
Proof. apply List.filter_In. Qed.

End TextFacts.

(** C7: for every size below 32 (16 in the fixed list) the function makes
    no text call, and every pixel of the returned image has the background
    blue or the border yellow. *)
Theorem tiny_icon_has_no_text `{FE : FontEnv} (size : Z) :
  0 <= size < 32 ->
  exists r, create_blockbuster_icon_body size = Some r /\
            text_calls (draw_calls r) = [] /\
            two_tone (returned r).
Proof.
  intros [H0 H32].
  destruct (body_text_calls size H0) as (r & Hr & Ht).
  exists r. split; [exact Hr|]. split.
  - rewrite Ht. unfold labels_of.
    destruct (128 <=? size) eqn:E1; [apply Z.leb_le in E1; lia|].
    destruct (32 <=? size) eqn:E2; [apply Z.leb_le in E2; lia|].
    reflexivity.
  - unfold create_blockbuster_icon_body in Hr.
    rewrite (Image_new_Some size size) in Hr by lia. simpl in Hr.
    destruct (64 <=? size) eqn:E; [apply Z.leb_le in E; lia|].
    injection Hr as <-. simpl.
    unfold draw_labels.
    destruct (128 <=? size) eqn:E1; [apply Z.leb_le in E1; lia|].
    destruct (32 <=? size) eqn:E2; [apply Z.leb_le in E2; lia|].
    unfold draw_border. rewrite E. intros x y. simpl.
    repeat match goal with
           | |- context [if ?b then _ else _] => destruct b
           end; auto.
Qed.

Lemma tiny_icon_has_no_text_witness :
  0 <= 16 < 32 /\
  exists r, create_blockbuster_icon_body (FE := cell_fonts) 16 = Some r /\
            text_calls (draw_calls r) = [] /\
            two_tone (returned r).
Proof.
  split; [lia | apply (tiny_icon_has_no_text (FE := cell_fonts) 16); lia].
Defined.





(** C8: for every positive integer size the border thickness is at least 2
    pixels and the tooth count is at least 8, the two being
    max(2, size // 64) and max(8, size // 32). *)
Theorem proportions_have_minimum (size : Z) :
  0 < size ->
  2 <= border_width size /\ 8 <= num_teeth size /\
  border_width size = Z.max 2 (size / 64) /\
  num_teeth size = Z.max 8 (size / 32).
Proof.
  intros _. unfold border_width, num_teeth. repeat split; lia.
Qed.

Lemma proportions_have_minimum_witness :
  0 < 16 /\
  2 <= border_width 16 /\ 8 <= num_teeth 16 /\
  border_width 16 = Z.max 2 (16 / 64) /\
  num_teeth 16 = Z.max 8 (16 / 32).
Proof.
  split; [lia | apply (proportions_have_minimum 16); lia].
Defined.


(** A text call made on draw is one of the labels of the size. *)
Lemma text_call_in_labels `{FE : FontEnv} (size : Z) (r : Rendered) (c : DrawCall) :
  text_calls (draw_calls r) = labels_of size ->
  is_text c = true ->
  In c (draw_calls r) <-> In c (labels_of size).
Proof.
  intros Ht Hc. rewrite <- Ht, in_text_calls. tauto.
Qed.

(** C5, as the code has it: from 128 pixels on the primary label N64 is
    drawn, from 256 pixels on also the secondary label EMULATOR, and no
    other label; the shadow of the primary label is drawn two pixels right
    and down of it, at (x+2, y+2), the shadow of the secondary label one
    pixel, at (x+1, y+1). *)
Theorem labels_have_offset_shadows `{FE : FontEnv} (size : Z) :
  128 <= size ->
  exists r,
    create_blockbuster_icon_body size = Some r /\
    (exists x y font, In (CText x y "N64" yellow font) (draw_calls r)) /\
    (256 <= size -> exists x y font, In (CText x y "EMULATOR" yellow font) (draw_calls r)) /\
    (forall x y s font, In (CText x y s yellow font) (draw_calls r) ->
                        s = "N64" \/ (s = "EMULATOR" /\ 256 <= size)) /\
    label_shadowed_by 2 "N64" (draw_calls r) /\
    label_shadowed_by 1 "EMULATOR" (draw_calls r).
Proof.
  intros Hs.
  destruct (body_text_calls size ltac:(lia)) as (r & Hr & Ht).
  exists r. split; [exact Hr|].
  pose proof (fun c => text_call_in_labels size r c Ht) as Hin.
  unfold labels_of in Hin.
  destruct (128 <=? size) eqn:E1; [|apply Z.leb_gt in E1; lia].
  repeat split.
  - do 3 eexists. apply Hin; [reflexivity|].
    apply in_or_app. left. right. left. reflexivity.
  - intros H256. destruct (256 <=? size) eqn:E2; [|apply Z.leb_gt in E2; lia].
    do 3 eexists. apply Hin; [reflexivity|].
    apply in_or_app. right. right. left. reflexivity.
  - intros x y s font H. apply Hin in H; [|reflexivity].
    destruct (256 <=? size) eqn:E2; simpl in H.
    + apply Z.leb_le in E2.
      destruct H as [H|[H|[H|[H|[]]]]]; inversion H; subst; auto.
    + destruct H as [H|[H|[]]]; inversion H; subst; auto.
  - intros x y font H. apply Hin in H; [|reflexivity]. apply Hin; [reflexivity|].
    destruct (256 <=? size); simpl in H |- *.
    + destruct H as [H|[H|[H|[H|[]]]]]; inversion H; subst; auto.
    + destruct H as [H|[H|[]]]; inversion H; subst; auto.
  - intros x y font H. apply Hin in H; [|reflexivity]. apply Hin; [reflexivity|].
    destruct (256 <=? size); simpl in H |- *.
    + destruct H as [H|[H|[H|[H|[]]]]]; inversion H; subst; auto.
    + destruct H as [H|[H|[]]]; inversion H; subst; auto.
Qed.

Lemma labels_have_offset_shadows_witness :
  128 <= 256 /\
  exists r,
    create_blockbuster_icon_body (FE := cell_fonts) 256 = Some r /\
    (exists x y font, In (CText x y "N64" yellow font) (draw_calls r)) /\
    (256 <= 256 -> exists x y font, In (CText x y "EMULATOR" yellow font) (draw_calls r)) /\
    (forall x y s font, In (CText x y s yellow font) (draw_calls r) ->
                        s = "N64" \/ (s = "EMULATOR" /\ 256 <= 256)) /\
    label_shadowed_by 2 "N64" (draw_calls r) /\
    label_shadowed_by 1 "EMULATOR" (draw_calls r).
Proof.
  split; [lia | apply (labels_have_offset_shadows (FE := cell_fonts) 256); lia].
Defined.

(** C5 as stated fails: at 128 pixels, with the fixed-cell font, the label
    N64 is drawn at (52, 42) and its shadow at (54, 44); nothing is drawn at
    (53, 43). *)
Lemma primary_shadow_not_one_pixel :
  exists r,
    create_blockbuster_icon_body (FE := cell_fonts) 128 = Some r /\
    In (CText (FE := cell_fonts) 52 42 "N64" yellow 16%nat) (draw_calls r) /\
    ~ label_shadowed_by 1 "N64" (draw_calls r).
Proof.
  destruct (body_text_calls (FE := cell_fonts) 128 ltac:(lia)) as (r & Hr & Ht).
  exists r. split; [exact Hr|].
  pose proof (fun c => text_call_in_labels (FE := cell_fonts) 128 r c Ht) as Hin.
  assert (Hl : labels_of (FE := cell_fonts) 128 =
               [CText (FE := cell_fonts) 54 44 "N64" shadow 16%nat;
                CText (FE := cell_fonts) 52 42 "N64" yellow 16%nat])
    by (vm_compute; reflexivity).
  rewrite Hl in Hin.
  assert (Hlabel : In (CText (FE := cell_fonts) 52 42 "N64" yellow 16%nat) (draw_calls r)).
  { apply Hin; [reflexivity|]. right. left. reflexivity. }
  split; [exact Hlabel|].
  intros Hsh. specialize (Hsh 52 42 16%nat Hlabel).
  apply Hin in Hsh; [|reflexivity].
  destruct Hsh as [H|[H|[]]]; discriminate H.
Qed.

(** * Properties of the builder *)

Section BuilderFacts.
Context `{FE : FontEnv}.

Lemma emit_all_app (tr1 tr2 : list Event) (w : World) :
  emit_all (tr1 ++ tr2) w = emit_all tr2 (emit_all tr1 w).
Proof. apply fold_left_app. Qed.

Lemma events_emit_all (tr : list Event) (w : World) :
  events (emit_all tr w) = events w ++ tr.
Proof.
  revert w. induction tr as [|e tr IH]; intros w; simpl.
  - symmetry. apply app_nil_r.
  - change (events (emit_all tr (emit e w)) = events w ++ e :: tr).
    rewrite IH. simpl. rewrite <- app_assoc. reflexivity.
Qed.

Lemma files_emit_all (tr : list Event) (w : World) :
  files (emit_all tr w) = apply_all tr (files w).
Proof.
  revert w. induction tr as [|e tr IH]; intros w; simpl; [reflexivity|].
  change (files (emit_all tr (emit e w)) = apply_all tr (apply_event e (files w))).
  apply IH.
Qed.

Lemma uniform_emit (e : Event) : uniform (fun w => Some (emit e w)).
Proof. exists [e]. reflexivity. Qed.

Lemma uniform_bind (f g : World -> option World) :
  uniform f -> uniform g -> uniform (fun w => f w ≫= g).
Proof.
  intros [tr1 H1] [tr2 H2]. exists (tr1 ++ tr2). intros w.
  rewrite H1. simpl. rewrite H2, emit_all_app. reflexivity.
Qed.

Lemma for_each_uniform {A} (body : World -> A -> option World) (xs : list A) :
  (forall x, In x xs -> uniform (fun w => body w x)) -> uniform (for_each body xs).
Proof.
  induction xs as [|x xs IH]; intros Hbody.
  - exists []. reflexivity.
  - apply (uniform_bind (fun w => body w x) (for_each body xs)).
    + apply Hbody. left. reflexivity.
    + apply IH. intros y Hy. apply Hbody. right. exact Hy.
Qed.

Lemma create_blockbuster_icon_Some (size : Z) :
  0 <= size -> exists img, create_blockbuster_icon size = Some img.
Proof.
  intros Hs. destruct (body_Some size Hs) as (r & Hr & _).
  exists (returned r). unfold create_blockbuster_icon. rewrite Hr. reflexivity.
Qed.

Lemma main_loop_uniform (size : Z) :
  0 <= size -> uniform (fun w => main_loop w size).
Proof.
  intros Hs. unfold main_loop.
  destruct (create_blockbuster_icon_Some size Hs) as [icon Hicon].
  destruct (create_blockbuster_icon_Some (size * 2) ltac:(lia)) as [icon_2x Hicon_2x].
  rewrite Hicon, Hicon_2x. simpl.
  destruct (size <=? 512).
  - eexists [_; _; _; _]. reflexivity.
  - eexists [_; _]. reflexivity.
Qed.

Lemma main_uniform : uniform main.
Proof.
  destruct (for_each_uniform main_loop sizes) as [tr Htr].
  { intros size Hin. apply main_loop_uniform.
    unfold sizes in Hin. simpl in Hin. intuition lia. }
  unfold main.
  eexists ([_; _] ++ tr ++ [_; _; _; _; _; _; _]). intros w.
  unfold makedirs, print, write, system.
  rewrite Htr. simpl. rewrite !emit_all_app. reflexivity.
Qed.

(** A run of [main] succeeds from every world and adds the events of
    [main_trace]. *)
Lemma main_run (w : World) : main w = Some (emit_all main_trace w).
Proof.
  destruct main_uniform as [tr Htr].
  assert (Heq : main_trace = tr).
  { unfold main_trace. rewrite (Htr empty_world). simpl.
    rewrite events_emit_all. reflexivity. }
  rewrite Heq. apply Htr.
Qed.

(** What a trace does to a file. *)
Lemma lookup_apply_event (e : Event) (fs : gmap string Content) (k : string) :
  apply_event e fs !! k =
    match write_of e k with Some c => Some c | None => fs !! k end.
Proof.
  destruct e as [p|l|p img|p d|c]; simpl; try reflexivity.
  - destruct (decide (p = k)) as [->|Hne].
    + apply lookup_insert_eq.
    + apply lookup_insert_ne, Hne.
  - destruct (decide (p = k)) as [->|Hne].
    + apply lookup_insert_eq.
    + apply lookup_insert_ne, Hne.
Qed.

Lemma lookup_apply_all (tr : list Event) (fs : gmap string Content) (k : string) :
  apply_all tr fs !! k =
    match last_write tr k with Some c => Some c | None => fs !! k end.
Proof.
  revert fs. induction tr as [|e tr IH]; intros fs; simpl; [reflexivity|].
  change (apply_all tr (apply_event e fs) !! k =
          match match last_write tr k with Some c => Some c | None => write_of e k end with
          | Some c => Some c
          | None => fs !! k
          end).
  rewrite IH, lookup_apply_event.
  destruct (last_write tr k); reflexivity.
Qed.

(** Replaying a trace over its own result changes no file. *)
Lemma apply_all_twice (tr : list Event) (fs : gmap string Content) :
  apply_all tr (apply_all tr fs) = apply_all tr fs.
Proof.
  apply map_eq. intros k. rewrite !lookup_apply_all.
  destruct (last_write tr k); reflexivity.
Qed.

(** The trace of [main], read by evaluation. *)
Lemma main_trace_written_paths : written_paths main_trace = expected_paths.
Proof. vm_compute. reflexivity. Qed.

Lemma main_trace_manifest_event :
  main_trace !! 28%nat = Some (EWrite contents_path contents_json).
Proof. vm_compute. reflexivity. Qed.

Lemma main_trace_written_text :
  written_text main_trace = [(contents_path, contents_json)].
Proof. vm_compute. reflexivity. Qed.

Lemma main_trace_last_manifest :
  last_write main_trace contents_path = Some (Bytes contents_json).
Proof. vm_compute. reflexivity. Qed.

Lemma main_trace_before_manifest :
  written_text (take 28 main_trace) = [] /\
  written_text (drop 29 main_trace) = [] /\
  forallb (fun name =>
             existsb (String.eqb (path_join output_dir name))
                     (saved_paths (take 28 main_trace)))
          manifest_filenames = true.
Proof. vm_compute. repeat split; reflexivity. Qed.

(** The trace of [main] around the write of the manifest. *)
Lemma main_trace_split :
  exists before after,
    main_trace = before ++ EWrite contents_path contents_json :: after /\
    written_text before = [] /\ written_text after = [] /\
    forall name, In name manifest_filenames ->
                 In (path_join output_dir name) (saved_paths before).
Proof.
  pose proof main_trace_manifest_event as Hev.
  pose proof main_trace_before_manifest as (Hb & Ha & Hall).
  revert Hev Hb Ha Hall. generalize main_trace. intros tr Hev Hb Ha Hall.
  exists (take 28 tr), (drop 29 tr).
  split; [symmetry; apply take_drop_middle, Hev|].
  split; [exact Hb|]. split; [exact Ha|].
  intros name Hname.
  rewrite forallb_forall in Hall. specialize (Hall name Hname).
  apply existsb_exists in Hall as (p & Hp & Heq).
  apply String.eqb_eq in Heq. rewrite Heq. exact Hp.
Qed.

End BuilderFacts.

(** C2, as the code has it: a run of main writes exactly 7 standard-density
    images, exactly 6 double-density images (one for each of the six sizes
    up to 512) and exactly 1 manifest, 14 different files in all: for each
    size its icon_{size}x{size}.png, followed for a size up to 512 by its
    icon_{size}x{size}@2x.png, and Contents.json last. *)
Theorem main_writes_fourteen_files `{FE : FontEnv} (w : World) :
  exists w' tr,
    main w = Some w' /\
    events w' = events w ++ tr /\
    written_paths tr = expected_paths /\
    file_counts (written_paths tr) = (7, 6, 1)%nat /\
    NoDup (written_paths tr).
Proof.
  exists (emit_all main_trace w), main_trace.
  split; [apply main_run|]. split; [apply events_emit_all|].
  rewrite main_trace_written_paths.
  split; [reflexivity|]. split; [vm_compute; reflexivity|].
  apply (bool_decide_unpack _). vm_compute. reflexivity.
Qed.

(** C2 as stated fails: the run from the empty world writes 6 double-density
    images, not 5. *)
Lemma double_density_count_is_not_five :
  exists w',
    main (FE := cell_fonts) empty_world = Some w' /\
    file_counts (written_paths (events w')) = (7, 6, 1)%nat /\
    file_counts (written_paths (events w')) <> (7, 5, 1)%nat.
Proof.
  exists (emit_all (main_trace (FE := cell_fonts)) empty_world).
  split; [apply main_run|].
  rewrite events_emit_all. unfold empty_world. cbn [events app].
  rewrite (main_trace_written_paths (FE := cell_fonts)).
  split; [vm_compute; reflexivity | vm_compute; discriminate].
Qed.

(** C3: every file name in the manifest that main writes names an image
    saved earlier in the same run: the names in the manifest are
    icon_{size}x{size}.png and icon_{size}x{size}@2x.png for the sizes 16,
    32, 128, 256 and 512, the manifest is written once, and each of these
    names, in the output directory, is saved before that write. *)
Theorem manifest_names_saved_files `{FE : FontEnv} (w : World) :
  manifest_filenames =
    flat_map (fun size => [filename_of size; filename_2x_of size]) [16; 32; 128; 256; 512] /\
  exists w' before after,
    main w = Some w' /\
    events w' = events w ++ before ++ EWrite contents_path contents_json :: after /\
    written_text before = [] /\ written_text after = [] /\
    forall name, In name manifest_filenames ->
                 In (path_join output_dir name) (saved_paths before).
Proof.
  split; [vm_compute; reflexivity|].
  destruct main_trace_split as (before & after & Hsplit & Hb & Ha & Hall).
  exists (emit_all main_trace w), before, after.
  split; [apply main_run|].
  split; [rewrite events_emit_all, Hsplit; reflexivity|].
  auto.
Qed.

(** C9: a second run of main, started in the world the first run left,
    writes the same paths in the same order as the first, leaves every file
    as the first run left it, and writes the same manifest text: the
    content of Contents.json is the same after both runs. *)
Theorem main_rerun_is_idempotent `{FE : FontEnv} (w0 : World) :
  exists w1 w2 tr1 tr2,
    main w0 = Some w1 /\ main w1 = Some w2 /\
    events w1 = events w0 ++ tr1 /\ events w2 = events w1 ++ tr2 /\
    written_paths tr1 = written_paths tr2 /\
    written_text tr1 = [(contents_path, contents_json)] /\
    written_text tr2 = [(contents_path, contents_json)] /\
    files w1 !! contents_path = Some (Bytes contents_json) /\
    files w2 !! contents_path = Some (Bytes contents_json) /\
    files w2 = files w1.
Proof.
  exists (emit_all main_trace w0), (emit_all main_trace (emit_all main_trace w0)),
    main_trace, main_trace.
  split; [apply main_run|]. split; [apply main_run|].
  split; [apply events_emit_all|]. split; [apply events_emit_all|].
  split; [reflexivity|].
  split; [apply main_trace_written_text|]. split; [apply main_trace_written_text|].
  rewrite !files_emit_all, apply_all_twice.
  rewrite lookup_apply_all, main_trace_last_manifest. auto.
Qed.

(** * Further properties of the renderer *)

Section MoreRendererFacts.
Context `{FE : FontEnv}.

(** The calls a loop adds, when every round appends its own. *)
Lemma fold_left_calls {A} (f : ImageDraw RGBA -> A -> ImageDraw RGBA)
    (g : A -> list DrawCall) (xs : list A) (d : ImageDraw RGBA) :
  (forall d' x, calls (f d' x) = calls d' ++ g x) ->
  calls (fold_left f xs d) = calls d ++ flat_map g xs.
Proof.
  intros Hf. revert d. induction xs as [|x xs IH]; intros d; simpl.
  - symmetry. apply app_nil_r.
  - rewrite IH, Hf, <- app_assoc. reflexivity.
Qed.

Lemma draw_border_calls (size : Z) (d : ImageDraw RGBA) :
  calls (draw_border size d) = calls d ++ border_calls size.
Proof.
  unfold draw_border, border_calls. simpl.
  destruct (64 <=? size).
  - rewrite (fold_left_calls _ (tear_calls size)).
    + simpl. rewrite <- !app_assoc. reflexivity.
    + intros d' i. simpl. rewrite <- app_assoc. reflexivity.
  - simpl. rewrite <- !app_assoc. reflexivity.
Qed.

(** The calls made on draw by a whole run: the border, then the labels. *)
Lemma body_draw_calls (size : Z) :
  0 <= size ->
  exists r, create_blockbuster_icon_body size = Some r /\
            draw_calls r = border_calls size ++ labels_of size.
Proof.
  intros Hs. destruct (body_Some size Hs) as (r & Hr & _).
  exists r. split; [exact Hr|].
  unfold create_blockbuster_icon_body in Hr.
  rewrite (Image_new_Some size size) in Hr by lia. simpl in Hr.
  assert (Hc : draw_calls r =
               calls (draw_labels size (draw_border size
                 (Draw (mkImage size size (fun _ _ => mkRGBA 0 51 153 255)))))).
  { destruct (64 <=? size).
    - destruct (corner_mask size); simpl in Hr; [|discriminate].
      destruct (putalpha _ _); simpl in Hr; [|discriminate].
      injection Hr as <-. reflexivity.
    - injection Hr as <-. reflexivity. }
  rewrite Hc, draw_labels_calls, draw_border_calls. reflexivity.
Qed.

Lemma labels_of_are_text (size : Z) (c : DrawCall) :
  In c (labels_of size) -> is_text c = true.
Proof.
  intros H. rewrite <- labels_of_all_text in H. apply in_text_calls in H. tauto.
Qed.

Lemma in_range3 (stop step i : Z) :
  In i (range3 0 stop step) <-> 0 < step /\ exists k, 0 <= k /\ i = k * step /\ i < stop.
Proof.
  unfold range3. destruct (Z.leb_spec step 0) as [Hle|Hlt].
  - simpl. split; [tauto | intros [H _]; lia].
  - rewrite <- list_elem_of_In, list_elem_of_fmap. split.
    + intros (k & -> & Hk). apply elem_of_seqZ in Hk. split; [lia|].
      exists k. split; [lia|]. split; [lia|].
      assert (k * step <= stop - 1); [|lia].
      assert (k + 1 <= (stop - 0 + step - 1) / step) as Hk1 by lia.
      pose proof (Z.mul_div_le (stop - 0 + step - 1) step Hlt).
      nia.
    + intros (_ & k & Hk0 & -> & Hk). exists k. split; [lia|].
      apply elem_of_seqZ. split; [lia|].
      assert (k + 1 <= (stop - 0 + step - 1) / step); [|lia].
      apply Z.div_le_lower_bound; [lia|]. nia.
Qed.

End MoreRendererFacts.


(** X2: below 64 pixels no pixel of the returned image is transparent:
    every pixel that getpixel can read has alpha 255, also under the label
    of the icons of 32 to 63 pixels. *)
Theorem small_icon_pixels_are_opaque `{FE : FontEnv} (size : Z) :
  0 <= size < 64 ->
  exists img,
    create_blockbuster_icon size = Some img /\
    forall x y p, getpixel img x y = Some p -> alpha p = 255.
Proof.
  intros Hs. destruct (small_icon_opaque size Hs) as (img & Himg & Hop).
  exists img. split; [exact Himg|].
  intros x y p Hp. unfold getpixel in Hp.
  destruct (in_bounds img x y); [|discriminate].
  injection Hp as <-. apply Hop.
Qed.

Lemma small_icon_pixels_are_opaque_witness :
  0 <= 32 < 64 /\
  exists img,
    create_blockbuster_icon (FE := cell_fonts) 32 = Some img /\
    forall x y p, getpixel img x y = Some p -> alpha p = 255.
Proof.
  split; [lia | apply (small_icon_pixels_are_opaque (FE := cell_fonts) 32); lia].
Defined.



(** X4: from 64 pixels on the transparency stays in the four corner
    squares of side 2 * (size // 8): every pixel whose column or whose row
    lies strictly between them has alpha 255. *)
Theorem transparency_stays_in_corner_squares `{FE : FontEnv} (size x y : Z) :
  64 <= size -> 0 <= x < size -> 0 <= y < size ->
  size / 8 * 2 < x < size - size / 8 * 2 \/ size / 8 * 2 < y < size - size / 8 * 2 ->
  exists img,
    create_blockbuster_icon size = Some img /\ alpha_at img x y = Some 255.
Proof.
  intros Hs Hx Hy Hmid.
  destruct (rounded_icon_alpha_at size x y Hs Hx Hy) as (img & Himg & Ha).
  exists img. split; [exact Himg|]. rewrite Ha.
  rewrite !in_ellipse_outside_box by lia. reflexivity.
Qed.

Lemma transparency_stays_in_corner_squares_witness :
  64 <= 64 /\ 0 <= 32 < 64 /\ 0 <= 0 < 64 /\
  (64 / 8 * 2 < 32 < 64 - 64 / 8 * 2 \/ 64 / 8 * 2 < 0 < 64 - 64 / 8 * 2) /\
  exists img,
    create_blockbuster_icon (FE := cell_fonts) 64 = Some img /\ alpha_at img 32 0 = Some 255.
Proof.
  assert (H : 64 / 8 * 2 < 32 < 64 - 64 / 8 * 2 \/ 64 / 8 * 2 < 0 < 64 - 64 / 8 * 2).
  { left. vm_compute. split; reflexivity. }
  split; [lia|]. split; [lia|]. split; [lia|]. split; [exact H|].
  apply (transparency_stays_in_corner_squares (FE := cell_fonts) 64 32 0); [lia|lia|lia|exact H].
Defined.

(** X5: every label is centred horizontally on the canvas by its drawing
    position: for a label drawn at (x, y), the space left of x and the
    space right of x + text_width differ by at most one pixel, the odd
    pixel going to the right. *)
Theorem labels_are_centred_horizontally `{FE : FontEnv} (size : Z) :
  0 <= size ->
  exists r,
    create_blockbuster_icon_body size = Some r /\
    forall x y s font,
      In (CText x y s yellow font) (draw_calls r) ->
      0 <= (size - (x + text_width font s)) - x <= 1.
Proof.
  intros Hs. destruct (body_text_calls size Hs) as (r & Hr & Ht).
  exists r. split; [exact Hr|].
  intros x y s font H.
  apply (text_call_in_labels size r _ Ht) in H; [|reflexivity].
  unfold labels_of in H. unfold text_width.
  destruct (128 <=? size); [destruct (256 <=? size)|destruct (32 <=? size)]; simpl in H.
  - destruct H as [H|[H|[H|[H|[]]]]]; inversion H; subst;
      match goal with
      | |- context [(size - ?w) / 2] =>
          pose proof (Z.div_mod (size - w) 2 ltac:(lia));
          pose proof (Z.mod_pos_bound (size - w) 2 ltac:(lia))
      end; lia.
  - destruct H as [H|[H|[]]]; inversion H; subst;
      match goal with
      | |- context [(size - ?w) / 2] =>
          pose proof (Z.div_mod (size - w) 2 ltac:(lia));
          pose proof (Z.mod_pos_bound (size - w) 2 ltac:(lia))
      end; lia.
  - destruct H as [H|[]]; inversion H; subst;
      match goal with
      | |- context [(size - ?w) / 2] =>
          pose proof (Z.div_mod (size - w) 2 ltac:(lia));
          pose proof (Z.mod_pos_bound (size - w) 2 ltac:(lia))
      end; lia.
  - destruct H.
Qed.

Lemma labels_are_centred_horizontally_witness :
  0 <= 256 /\
  exists r,
    create_blockbuster_icon_body (FE := cell_fonts) 256 = Some r /\
    forall x y s font,
      In (CText x y s yellow font) (draw_calls r) ->
      0 <= (256 - (x + text_width font s)) - x <= 1.
Proof.
  split; [lia | apply (labels_are_centred_horizontally (FE := cell_fonts) 256); lia].
Defined.

(** X6: from 32 to 127 pixels the only text call draws the label N64 in
    yellow, in the font asked for at size // 4, without a shadow, and
    centred in both directions on its bounding-box size. *)
Theorem mid_size_icon_has_one_centred_label `{FE : FontEnv} (size : Z) :
  32 <= size < 128 ->
  exists r x y,
    create_blockbuster_icon_body size = Some r /\
    let font := truetype_or_default helvetica (size / 4) in
    text_calls (draw_calls r) = [CText x y "N64" yellow font] /\
    0 <= (size - (x + text_width font "N64")) - x <= 1 /\
    0 <= (size - (y + text_height font "N64")) - y <= 1.
Proof.
  intros [H32 H128].
  destruct (body_text_calls size ltac:(lia)) as (r & Hr & Ht).
  unfold labels_of in Ht.
  destruct (128 <=? size) eqn:E1; [apply Z.leb_le in E1; lia|].
  destruct (32 <=? size) eqn:E2; [|apply Z.leb_gt in E2; lia].
  simpl in Ht.
  do 3 eexists. split; [exact Hr|]. simpl. split; [exact Ht|].
  unfold text_width, text_height.
  set (w := item2 _ - item0 _). set (h := item3 _ - item1 _).
  pose proof (Z.div_mod (size - w) 2 ltac:(lia)).
  pose proof (Z.mod_pos_bound (size - w) 2 ltac:(lia)).
  pose proof (Z.div_mod (size - h) 2 ltac:(lia)).
  pose proof (Z.mod_pos_bound (size - h) 2 ltac:(lia)).
  lia.
Qed.

Lemma mid_size_icon_has_one_centred_label_witness :
  32 <= 64 < 128 /\
  exists r x y,
    create_blockbuster_icon_body (FE := cell_fonts) 64 = Some r /\
    let font := truetype_or_default (FE := cell_fonts) helvetica (64 / 4) in
    text_calls (draw_calls r) = [CText x y "N64" yellow font] /\
    0 <= (64 - (x + text_width font "N64")) - x <= 1 /\
    0 <= (64 - (y + text_height font "N64")) - y <= 1.
Proof.
  split; [lia | apply (mid_size_icon_has_one_centred_label (FE := cell_fonts) 64); lia].
Defined.

(** X7: when the Helvetica file cannot be loaded at any size, the function
    still returns, and every text call uses the built-in default font. *)
Theorem text_falls_back_to_default_font `{FE : FontEnv} (size : Z) :
  0 <= size ->
  (forall font_size, truetype helvetica font_size = None) ->
  exists r,
    create_blockbuster_icon_body size = Some r /\
    forall x y s fill font,
      In (CText x y s fill font) (draw_calls r) -> font = load_default.
Proof.
  intros Hs Hnone. destruct (body_text_calls size Hs) as (r & Hr & Ht).
  exists r. split; [exact Hr|].
  intros x y s fill font H.
  apply (text_call_in_labels size r _ Ht) in H; [|reflexivity].
  unfold labels_of, truetype_or_default in H. rewrite !Hnone in H. simpl in H.
  destruct (128 <=? size); [destruct (256 <=? size)|destruct (32 <=? size)]; simpl in H;
    repeat (destruct H as [H|H]; [inversion H; reflexivity|]); destruct H.
Qed.

Lemma text_falls_back_to_default_font_witness :
  0 <= 256 /\
  (forall font_size, truetype (FontEnv := cell_fonts_without_helvetica) helvetica font_size = None) /\
  exists r,
    create_blockbuster_icon_body (FE := cell_fonts_without_helvetica) 256 = Some r /\
    forall x y s fill font,
      In (CText x y s fill font) (draw_calls r) -> font = 10%nat.
Proof.
  split; [lia|]. split; [reflexivity|].
  apply (text_falls_back_to_default_font (FE := cell_fonts_without_helvetica) 256);
    [lia | reflexivity].
Defined.

Section BorderFacts.
Context `{FE : FontEnv}.

Lemma in_box_iff (x0 y0 x1 y1 x y : Z) :
  in_box x0 y0 x1 y1 x y = true <-> x0 <= x <= x1 /\ y0 <= y <= y1.
Proof.
  unfold in_box. rewrite !andb_true_iff, !Z.leb_le. lia.
Qed.

Lemma in_box_outside (x0 y0 x1 y1 x y : Z) :
  x < x0 \/ x1 < x \/ y < y0 \/ y1 < y -> in_box x0 y0 x1 y1 x y = false.
Proof.
  intros H. apply not_true_iff_false. rewrite in_box_iff. lia.
Qed.

(** A pixel above or below both ends of an edge is not on it, and a ray
    from it does not cross it. *)
Lemma on_segment_outside_rows (a b : Z * Z) (x y : Z) :
  (y < a.2 /\ y < b.2) \/ (a.2 < y /\ b.2 < y) -> on_segment a b x y = false.
Proof.
  destruct a as [ax ay], b as [bx by']. simpl. intros H. unfold on_segment.
  apply not_true_iff_false. rewrite !andb_true_iff, !Z.leb_le. lia.
Qed.

Lemma crosses_outside_rows (a b : Z * Z) (x y : Z) :
  (y < a.2 /\ y < b.2) \/ (a.2 < y /\ b.2 < y) -> crosses a b x y = false.
Proof.
  destruct a as [ax ay], b as [bx by']. simpl. intros H. unfold crosses.
  destruct (Z.ltb_spec y ay), (Z.ltb_spec y by'); simpl; try reflexivity; lia.
Qed.

(** A quadrilateral covers no pixel of a row above or below all its
    corners. *)
Lemma in_quad_outside_rows (a b c d : Z * Z) (x y : Z) :
  (y < a.2 /\ y < b.2 /\ y < c.2 /\ y < d.2) \/
  (a.2 < y /\ b.2 < y /\ c.2 < y /\ d.2 < y) ->
  in_polygon [a; b; c; d] x y = false.
Proof.
  intros H. unfold in_polygon, edges. simpl.
  rewrite !on_segment_outside_rows by lia.
  rewrite !filter_cons, filter_nil. simpl.
  rewrite !crosses_outside_rows by lia.
  reflexivity.
Qed.

(** The colour of a pixel of an icon of less than 32 pixels: yellow where
    one of the four border rectangles or one of the two ticket punches
    covers it, the blue of the background elsewhere. *)
Lemma tiny_icon_pixel (size x y : Z) :
  0 <= size < 32 -> 0 <= x < size -> 0 <= y < size ->
  exists img,
    create_blockbuster_icon size = Some img /\
    getpixel img x y =
      Some (if in_box (size - border_width size * 2) 0 size size x y
               || in_box 0 0 (border_width size * 2) size x y
               || in_box 0 (size - border_width size) size size x y
               || in_box 0 0 size (border_width size) x y
               || in_polygon [(size - border_width size * 3, ticket_indent size);
                              (size, ticket_indent size);
                              (size, ticket_indent size + size / 16);
                              (size - border_width size * 3,
                               ticket_indent size + size / 16)] x y
               || in_polygon [(0, ticket_indent size);
                              (border_width size * 3, ticket_indent size);
                              (border_width size * 3, ticket_indent size + size / 16);
                              (0, ticket_indent size + size / 16)] x y
            then yellow_pixel else blue_pixel).
Proof.
  intros Hs Hx Hy.
  assert (Hb : (0 <=? x) && (x <? size) && (0 <=? y) && (y <? size) = true).
  { rewrite !andb_true_iff, !Z.leb_le, !Z.ltb_lt. lia. }
  unfold create_blockbuster_icon, create_blockbuster_icon_body.
  rewrite (Image_new_Some size size) by lia. simpl.
  destruct (64 <=? size) eqn:E; [apply Z.leb_le in E; lia|].
  simpl. eexists. split; [reflexivity|].
  unfold draw_labels.
  destruct (128 <=? size) eqn:E1; [apply Z.leb_le in E1; lia|].
  destruct (32 <=? size) eqn:E2; [apply Z.leb_le in E2; lia|].
  unfold draw_border. rewrite E. unfold getpixel. simpl.
  repeat change (in_bounds (paint ?c ?f ?im) x y) with (in_bounds im x y).
  unfold in_bounds. simpl. rewrite !Hb. simpl.
  repeat match goal with
         | |- context [if ?b then _ else _] => destruct b; simpl
         end; reflexivity.
Qed.

End BorderFacts.

(** X8: when size // 16 is even, as it is for every size the builder
    renders from 64 pixels on, the torn edge is flat: every rectangle call is
    yellow and is a top tear of the height of the border, a bottom tear of
    that height, or a full-height side border. *)
Theorem even_step_tears_are_flat `{FE : FontEnv} (size : Z) :
  64 <= size -> (size / 16) mod 2 = 0 ->
  exists r,
    create_blockbuster_icon_body size = Some r /\
    forall x0 y0 x1 y1 fill,
      In (CRectangle x0 y0 x1 y1 fill) (draw_calls r) ->
      fill = yellow /\
      ((y0 = 0 /\ y1 = border_width size) \/
       (y0 = size - border_width size /\ y1 = size) \/
       (y0 = 0 /\ y1 = size)).
Proof.
  intros Hs Heven.
  destruct (body_draw_calls size ltac:(lia)) as (r & Hr & Hc).
  exists r. split; [exact Hr|].
  intros x0 y0 x1 y1 fill H. rewrite Hc in H.
  apply in_app_or in H as [H|H]; [|apply labels_of_are_text in H; discriminate].
  unfold border_calls in H.
  destruct (64 <=? size) eqn:E; [|apply Z.leb_gt in E; lia].
  simpl in H. destruct H as [H|[H|H]]; [discriminate|discriminate|].
  apply in_app_or in H as [H|H].
  - apply in_flat_map in H as (i & Hi & H).
    apply in_range3 in Hi as (Hstep & k & Hk & -> & _).
    assert (Hmod : (k * (size / 16)) mod 2 = 0).
    { rewrite (Z.div_mod (size / 16) 2) by lia. rewrite Heven.
      replace (k * (2 * (size / 16 / 2) + 0)) with (k * (size / 16 / 2) * 2) by ring.
      apply Z.mod_mul. lia. }
    unfold tear_calls in H. rewrite Hmod in H. simpl in H.
    destruct H as [H|[H|[]]]; inversion H; subst; auto.
  - simpl in H. destruct H as [H|[H|[]]]; inversion H; subst; auto.
Qed.

Lemma even_step_tears_are_flat_witness :
  64 <= 64 /\ (64 / 16) mod 2 = 0 /\
  exists r,
    create_blockbuster_icon_body (FE := cell_fonts) 64 = Some r /\
    forall x0 y0 x1 y1 fill,
      In (CRectangle x0 y0 x1 y1 fill) (draw_calls r) ->
      fill = yellow /\
      ((y0 = 0 /\ y1 = border_width 64) \/
       (y0 = 64 - border_width 64 /\ y1 = 64) \/
       (y0 = 0 /\ y1 = 64)).
Proof.
  split; [lia|]. split; [reflexivity|].
  apply (even_step_tears_are_flat (FE := cell_fonts) 64); [lia | reflexivity].
Defined.

(** X9: when size // 16 is odd the tears alternate: the first top tear, at
    column 0, has the height of the border, and the second, at column
    size // 16, has twice that height. *)
Theorem odd_step_tears_alternate `{FE : FontEnv} (size : Z) :
  64 <= size -> (size / 16) mod 2 = 1 ->
  exists r,
    create_blockbuster_icon_body size = Some r /\
    In (CRectangle 0 0 (size / 16) (border_width size) yellow) (draw_calls r) /\
    In (CRectangle (size / 16) 0 (size / 16 + size / 16) (border_width size * 2) yellow)
       (draw_calls r).
Proof.
  intros Hs Hodd.
  destruct (body_draw_calls size ltac:(lia)) as (r & Hr & Hc).
  exists r. split; [exact Hr|]. rewrite Hc.
  assert (Hstep : 4 <= size / 16) by (apply Z.div_le_lower_bound; lia).
  pose proof (Z.mul_div_le size 16 ltac:(lia)) as Hle.
  unfold border_calls.
  destruct (64 <=? size) eqn:E; [|apply Z.leb_gt in E; lia].
  split.
  - apply in_or_app. left. apply in_or_app. right. apply in_or_app. left.
    apply in_flat_map. exists 0. split.
    + apply in_range3. split; [lia|]. exists 0. lia.
    + unfold tear_calls. left. simpl. f_equal; lia.
  - apply in_or_app. left. apply in_or_app. right. apply in_or_app. left.
    apply in_flat_map. exists (size / 16). split.
    + apply in_range3. split; [lia|]. exists 1. lia.
    + unfold tear_calls. rewrite Hodd. left. f_equal; lia.
Qed.

Lemma odd_step_tears_alternate_witness :
  64 <= 80 /\ (80 / 16) mod 2 = 1 /\
  exists r,
    create_blockbuster_icon_body (FE := cell_fonts) 80 = Some r /\
    In (CRectangle 0 0 (80 / 16) (border_width 80) yellow) (draw_calls r) /\
    In (CRectangle (80 / 16) 0 (80 / 16 + 80 / 16) (border_width 80 * 2) yellow)
       (draw_calls r).
Proof.
  split; [lia|]. split; [reflexivity|].
  apply (odd_step_tears_alternate (FE := cell_fonts) 80); [lia | reflexivity].
Defined.

(** X10: in an icon of less than 32 pixels the frame is yellow and the
    field inside it is blue: a pixel in the two border widths at the left or
    right, or in the one border width at the top or bottom, is yellow; a
    pixel inside the frame, in a row above or below the ticket punches, is
    blue.  The coordinates of a rectangle include both ends, so the left and
    top bands are one pixel thicker than the right and bottom ones. *)
Theorem tiny_icon_frame_and_field `{FE : FontEnv} (size x y : Z) :
  0 <= size < 32 -> 0 <= x < size -> 0 <= y < size ->
  exists img,
    create_blockbuster_icon size = Some img /\
    (x <= border_width size * 2 \/ size - border_width size * 2 <= x \/
     y <= border_width size \/ size - border_width size <= y ->
     getpixel img x y = Some yellow_pixel) /\
    (border_width size * 2 < x < size - border_width size * 2 ->
     border_width size < y < size - border_width size ->
     y < ticket_indent size \/ ticket_indent size + size / 16 < y ->
     getpixel img x y = Some blue_pixel).
Proof.
  intros Hs Hx Hy.
  destruct (tiny_icon_pixel size x y Hs Hx Hy) as (img & Himg & Hp).
  exists img. split; [exact Himg|]. rewrite Hp. split.
  - intros Hframe.
    destruct (in_box (size - border_width size * 2) 0 size size x y) eqn:B1; [reflexivity|].
    destruct (in_box 0 0 (border_width size * 2) size x y) eqn:B2; [reflexivity|].
    destruct (in_box 0 (size - border_width size) size size x y) eqn:B3; [reflexivity|].
    destruct (in_box 0 0 size (border_width size) x y) eqn:B4; [reflexivity|].
    apply not_true_iff_false in B1, B2, B3, B4. rewrite in_box_iff in B1, B2, B3, B4. lia.
  - intros Hxin Hyin Hrows.
    assert (0 <= size / 16) by (apply Z.div_pos; lia).
    rewrite !in_box_outside by lia.
    rewrite !in_quad_outside_rows by (simpl; lia).
    reflexivity.
Qed.

Lemma tiny_icon_frame_and_field_witness :
  0 <= 16 < 32 /\ 0 <= 8 < 16 /\ 0 <= 8 < 16 /\
  exists img,
    create_blockbuster_icon (FE := cell_fonts) 16 = Some img /\
    (8 <= border_width 16 * 2 \/ 16 - border_width 16 * 2 <= 8 \/
     8 <= border_width 16 \/ 16 - border_width 16 <= 8 ->
     getpixel img 8 8 = Some yellow_pixel) /\
    (border_width 16 * 2 < 8 < 16 - border_width 16 * 2 ->
     border_width 16 < 8 < 16 - border_width 16 ->
     8 < ticket_indent 16 \/ ticket_indent 16 + 16 / 16 < 8 ->
     getpixel img 8 8 = Some blue_pixel).
Proof.
  split; [lia|]. split; [lia|]. split; [lia|].
  apply (tiny_icon_frame_and_field (FE := cell_fonts) 16 8 8); lia.
Defined.

(** X11: an icon of at most 9 pixels is yellow all over: the two side
    borders alone cover every column. *)
Theorem icon_up_to_9_pixels_is_all_border `{FE : FontEnv} (size : Z) :
  0 <= size <= 9 ->
  exists img,
    create_blockbuster_icon size = Some img /\
    forall x y p, getpixel img x y = Some p -> p = yellow_pixel.
Proof.
  intros Hs.
  destruct (create_blockbuster_icon_Some size ltac:(lia)) as [img Himg].
  exists img. split; [exact Himg|].
  intros x y p Hp.
  destruct (body_Some size ltac:(lia)) as (r & Hr & Hw & Hh).
  assert (Hret : img = returned r).
  { unfold create_blockbuster_icon in Himg. rewrite Hr in Himg.
    injection Himg as <-. reflexivity. }
  assert (Hin : 0 <= x < size /\ 0 <= y < size).
  { unfold getpixel, in_bounds in Hp. rewrite Hret, Hw, Hh in Hp.
    destruct ((0 <=? x) && (x <? size) && (0 <=? y) && (y <? size)) eqn:Eb; [|discriminate].
    rewrite !andb_true_iff, !Z.leb_le, !Z.ltb_lt in Eb. lia. }
  destruct (tiny_icon_pixel size x y ltac:(lia) ltac:(lia) ltac:(lia))
    as (img' & Himg' & Hcol).
  rewrite Himg in Himg'. injection Himg' as <-.
  rewrite Hcol in Hp. injection Hp as <-.
  assert (Hbw : border_width size = 2).
  { unfold border_width. rewrite Z.div_small by lia. reflexivity. }
  destruct (Z.le_gt_cases x 4) as [Hleft|Hright].
  - rewrite (proj2 (in_box_iff 0 0 (border_width size * 2) size x y)) by lia.
    rewrite !orb_true_r. reflexivity.
  - rewrite (proj2 (in_box_iff (size - border_width size * 2) 0 size size x y)) by lia.
    reflexivity.
Qed.

Lemma icon_up_to_9_pixels_is_all_border_witness :
  0 <= 8 <= 9 /\
  exists img,
    create_blockbuster_icon (FE := cell_fonts) 8 = Some img /\
    forall x y p, getpixel img x y = Some p -> p = yellow_pixel.
Proof.
  split; [lia | apply (icon_up_to_9_pixels_is_all_border (FE := cell_fonts) 8); lia].
Defined.

(** X18: from 64 pixels on the tears leave no gap: every column of the
    image lies in the span of a round of the tear loop, which draws over
    it a top tear and a bottom tear, each at least as high as the border. *)
Theorem tears_cover_every_column `{FE : FontEnv} (size x : Z) :
  64 <= size -> 0 <= x < size ->
  exists r i h,
    create_blockbuster_icon_body size = Some r /\
    i <= x <= i + size / 16 /\ border_width size <= h /\
    In (CRectangle i 0 (i + size / 16) h yellow) (draw_calls r) /\
    In (CRectangle i (size - h) (i + size / 16) size yellow) (draw_calls r).
Proof.
  intros Hs Hx.
  destruct (body_draw_calls size ltac:(lia)) as (r & Hr & Hc).
  assert (Hstep : 4 <= size / 16) by (apply Z.div_le_lower_bound; lia).
  pose proof (Z.div_mod x (size / 16) ltac:(lia)) as Hdm.
  pose proof (Z.mod_pos_bound x (size / 16) ltac:(lia)) as Hmb.
  assert (Hk : 0 <= x / (size / 16)) by (apply Z.div_pos; lia).
  set (i := x / (size / 16) * (size / 16)).
  assert (Hi : i <= x <= i + size / 16) by (subst i; lia).
  pose proof (Z.mod_pos_bound i 2 ltac:(lia)) as Hi2.
  assert (Hbw : 2 <= border_width size) by (unfold border_width; lia).
  exists r, i, ((i mod 2) * border_width size + border_width size).
  split; [exact Hr|]. split; [exact Hi|]. split; [nia|].
  assert (Hin : In i (range3 0 size (size / 16))).
  { apply in_range3. split; [lia|]. exists (x / (size / 16)). subst i. lia. }
  rewrite Hc. unfold border_calls.
  destruct (64 <=? size) eqn:E; [|apply Z.leb_gt in E; lia].
  split.
  - apply in_or_app. left. apply in_or_app. right. apply in_or_app. left.
    apply in_flat_map. exists i. split; [exact Hin|]. left. reflexivity.
  - apply in_or_app. left. apply in_or_app. right. apply in_or_app. left.
    apply in_flat_map. exists i. split; [exact Hin|]. right. left. reflexivity.
Qed.

Lemma tears_cover_every_column_witness :
  64 <= 64 /\ 0 <= 63 < 64 /\
  exists r i h,
    create_blockbuster_icon_body (FE := cell_fonts) 64 = Some r /\
    i <= 63 <= i + 64 / 16 /\ border_width 64 <= h /\
    In (CRectangle i 0 (i + 64 / 16) h yellow) (draw_calls r) /\
    In (CRectangle i (64 - h) (i + 64 / 16) 64 yellow) (draw_calls r).
Proof.
  split; [lia|]. split; [lia|].
  apply (tears_cover_every_column (FE := cell_fonts) 64 63); lia.
Defined.

(** * Further properties of the builder *)

Section MoreBuilderFacts.
Context `{FE : FontEnv}.

Lemma create_blockbuster_icon_icon_of (size : Z) :
  0 <= size -> create_blockbuster_icon size = Some (icon_of size).
Proof.
  intros Hs. destruct (create_blockbuster_icon_Some size Hs) as [img Himg].
  unfold icon_of. rewrite Himg. reflexivity.
Qed.

Lemma icon_of_size (size : Z) :
  0 <= size -> width (icon_of size) = size /\ height (icon_of size) = size.
Proof.
  intros Hs. destruct (body_Some size Hs) as (r & Hr & Hw & Hh).
  unfold icon_of, create_blockbuster_icon. rewrite Hr. simpl. auto.
Qed.

(** The trace of [main], event by event. *)
Lemma main_trace_events : main_trace = run_events icon_of.
Proof.
  unfold main_trace.
  assert (He : events <$> main empty_world = Some (run_events icon_of)).
  { pose proof (create_blockbuster_icon_icon_of 16 ltac:(lia)) as H16.
    pose proof (create_blockbuster_icon_icon_of 32 ltac:(lia)) as H32.
    pose proof (create_blockbuster_icon_icon_of 64 ltac:(lia)) as H64.
    pose proof (create_blockbuster_icon_icon_of 128 ltac:(lia)) as H128.
    pose proof (create_blockbuster_icon_icon_of 256 ltac:(lia)) as H256.
    pose proof (create_blockbuster_icon_icon_of 512 ltac:(lia)) as H512.
    pose proof (create_blockbuster_icon_icon_of 1024 ltac:(lia)) as H1024.
    revert H16 H32 H64 H128 H256 H512 H1024. generalize icon_of.
    intros icon H16 H32 H64 H128 H256 H512 H1024.
    unfold main, sizes. cbn [for_each]. unfold main_loop.
    change (16 * 2) with 32. change (32 * 2) with 64. change (64 * 2) with 128.
    change (128 * 2) with 256. change (256 * 2) with 512. change (512 * 2) with 1024.
    rewrite H16, H32, H64, H128, H256, H512, H1024.
    vm_compute. reflexivity. }
  rewrite He. reflexivity.
Qed.


(** What a run leaves at the path of each image, for any rendering. *)
Lemma run_events_images (icon : Z -> Image RGBA) (size : Z) :
  In size sizes ->
  last_write (run_events icon) (path_join output_dir (filename_of size))
    = Some (PNG (icon size)) /\
  (size <= 512 ->
   last_write (run_events icon) (path_join output_dir (filename_2x_of size))
     = Some (PNG (icon (size * 2)))).
Proof.
  intros Hin. unfold sizes in Hin. simpl in Hin.
  destruct Hin as [<-|[<-|[<-|[<-|[<-|[<-|[<-|[]]]]]]]];
    (split; [vm_compute; reflexivity | intros Hle; try lia; vm_compute; reflexivity]).
Qed.

Lemma run_events_facts (icon : Z -> Image RGBA) :
  run_events icon !! 0%nat = Some (EMakedirs output_dir) /\
  run_events icon !! 31%nat = Some (ESystem iconutil_command) /\
  written_paths (take 31 (run_events icon)) = expected_paths /\
  written_paths (drop 32 (run_events icon)) = [] /\
  commands (run_events icon) = [iconutil_command] /\
  unreferenced manifest_filenames (saved_paths (run_events icon)) =
    map (path_join output_dir) [filename_of 64; filename_2x_of 64; filename_of 1024] /\
  forallb (fun p => match strip_prefix (output_dir +:+ "/") p with
                    | Some name => negb (has_slash name)
                    | None => false
                    end) (written_paths (run_events icon)) = true.
Proof. vm_compute. repeat split; reflexivity. Qed.

End MoreBuilderFacts.

Lemma strip_prefix_Some (pre s rest : string) :
  strip_prefix pre s = Some rest -> s = pre +:+ rest.
Proof.
  revert s. induction pre as [|a pre IH]; intros s H; simpl in H.
  - injection H as ->. reflexivity.
  - destruct s as [|b s]; [discriminate|].
    destruct (Ascii.eqb a b) eqn:E; [|discriminate].
    apply Ascii.eqb_eq in E. subst b.
    change (String a s = String a (pre +:+ rest)). f_equal. apply IH, H.
Qed.



(** X13: the first thing a run of main does is to create the output
    directory, and every file it writes afterwards lies directly in that
    directory: its path is the directory, a slash, and a name without a
    slash. *)
Theorem main_writes_only_into_output_dir `{FE : FontEnv} (w : World) :
  exists w' tr,
    main w = Some w' /\
    events w' = events w ++ tr /\
    tr !! 0%nat = Some (EMakedirs output_dir) /\
    forall p, In p (written_paths tr) ->
              exists name, p = path_join output_dir name /\ has_slash name = false.
Proof.
  exists (emit_all main_trace w), main_trace.
  split; [apply main_run|]. split; [apply events_emit_all|].
  rewrite main_trace_events.
  destruct (run_events_facts icon_of) as (H0 & _ & _ & _ & _ & _ & Hall).
  split; [exact H0|].
  intros p Hp. rewrite forallb_forall in Hall. specialize (Hall p Hp).
  destruct (strip_prefix (output_dir +:+ "/") p) as [name|] eqn:E; [|discriminate].
  exists name. split.
  - apply strip_prefix_Some in E. rewrite E. unfold path_join.
    generalize output_dir. intros d. induction d as [|c d IH]; [reflexivity|].
    change (String c ((d +:+ "/") +:+ name) = String c (d +:+ "/" +:+ name)).
    f_equal. exact IH.
  - apply negb_true_iff, Hall.
Qed.

(** X14: a run of main hands exactly one command to the shell, the
    iconutil call, and it does so only after all fourteen files are written:
    no file is written after that call. *)
Theorem iconutil_runs_once_after_all_writes `{FE : FontEnv} (w : World) :
  exists w' before after,
    main w = Some w' /\
    events w' = events w ++ before ++ ESystem iconutil_command :: after /\
    commands before = [] /\ commands after = [] /\
    written_paths before = expected_paths /\
    written_paths after = [].
Proof.
  destruct (run_events_facts icon_of) as (_ & Hsys & Hb & Ha & Hc & _ & _).
  pose proof (main_run w) as Hrun. rewrite main_trace_events in Hrun.
  revert Hsys Hb Ha Hc Hrun. generalize (run_events icon_of).
  intros tr Hsys Hb Ha Hc Hrun.
  exists (emit_all tr w), (take 31 tr), (drop 32 tr).
  pose proof (take_drop_middle tr 31 _ Hsys) as Hsplit.
  split; [exact Hrun|].
  split; [rewrite events_emit_all, Hsplit; reflexivity|].
  rewrite <- Hsplit in Hc. unfold commands in Hc.
  rewrite omap_app in Hc. simpl in Hc.
  fold (commands (take 31 tr)) in Hc. fold (commands (drop 32 tr)) in Hc.
  destruct (commands (take 31 tr)) as [|c1 cs1].
  - simpl in Hc. injection Hc as Hc. auto.
  - simpl in Hc. injection Hc as _ Hc.
    destruct cs1; discriminate Hc.
Qed.

(** X15: after a run of main, the file icon_{size}x{size}.png of every
    size of the list holds the image rendered for that size, which is size
    pixels wide and high, and for a size up to 512 the file
    icon_{size}x{size}@2x.png holds the image rendered for twice the size,
    which is 2 * size pixels wide and high. *)
Theorem saved_images_match_their_names `{FE : FontEnv} (w : World) (size : Z) :
  In size sizes ->
  exists w' img,
    main w = Some w' /\
    create_blockbuster_icon size = Some img /\
    files w' !! path_join output_dir (filename_of size) = Some (PNG img) /\
    width img = size /\ height img = size /\
    (size <= 512 ->
     exists img_2x,
       create_blockbuster_icon (size * 2) = Some img_2x /\
       files w' !! path_join output_dir (filename_2x_of size) = Some (PNG img_2x) /\
       width img_2x = size * 2 /\ height img_2x = size * 2).
Proof.
  intros Hin.
  assert (Hpos : 0 < size).
  { unfold sizes in Hin. simpl in Hin. intuition lia. }
  destruct (run_events_images icon_of size Hin) as [Hstd H2x].
  exists (emit_all main_trace w), (icon_of size).
  split; [apply main_run|].
  split; [apply create_blockbuster_icon_icon_of; lia|].
  rewrite files_emit_all, main_trace_events.
  split; [rewrite lookup_apply_all, Hstd; reflexivity|].
  destruct (icon_of_size size ltac:(lia)) as [Hw Hh].
  split; [exact Hw|]. split; [exact Hh|].
  intros Hle. exists (icon_of (size * 2)).
  split; [apply create_blockbuster_icon_icon_of; lia|].
  split; [rewrite lookup_apply_all, (H2x Hle); reflexivity|].
  apply icon_of_size. lia.
Qed.

Lemma saved_images_match_their_names_witness :
  In 16 sizes /\
  exists w' img,
    main (FE := cell_fonts) empty_world = Some w' /\
    create_blockbuster_icon (FE := cell_fonts) 16 = Some img /\
    files w' !! path_join output_dir (filename_of 16) = Some (PNG img) /\
    width img = 16 /\ height img = 16 /\
    (16 <= 512 ->
     exists img_2x,
       create_blockbuster_icon (FE := cell_fonts) (16 * 2) = Some img_2x /\
       files w' !! path_join output_dir (filename_2x_of 16) = Some (PNG img_2x) /\
       width img_2x = 16 * 2 /\ height img_2x = 16 * 2).
Proof.
  assert (H : In 16 sizes) by (left; reflexivity).
  split; [exact H|].
  apply (saved_images_match_their_names (FE := cell_fonts) empty_world 16 H).
Defined.

(** X16: every double-density file is a copy of a standard-density one:
    for a size up to 512, icon_{size}x{size}@2x.png and the standard file of
    twice the size hold the same image after a run of main. *)
Theorem double_density_file_equals_next_standard_file `{FE : FontEnv} (w : World) (size : Z) :
  In size sizes -> size <= 512 ->
  exists w' img,
    main w = Some w' /\
    files w' !! path_join output_dir (filename_2x_of size) = Some (PNG img) /\
    files w' !! path_join output_dir (filename_of (size * 2)) = Some (PNG img).
Proof.
  intros Hin Hle.
  assert (Hin2 : In (size * 2) sizes).
  { unfold sizes in *. simpl in *.
    destruct Hin as [<-|[<-|[<-|[<-|[<-|[<-|[<-|[]]]]]]]]; simpl; try lia; tauto. }
  destruct (run_events_images icon_of size Hin) as [_ H2x].
  destruct (run_events_images icon_of (size * 2) Hin2) as [Hstd _].
  exists (emit_all main_trace w), (icon_of (size * 2)).
  split; [apply main_run|].
  rewrite files_emit_all, main_trace_events, !lookup_apply_all, (H2x Hle), Hstd.
  split; reflexivity.
Qed.

Lemma double_density_file_equals_next_standard_file_witness :
  In 16 sizes /\ 16 <= 512 /\
  exists w' img,
    main (FE := cell_fonts) empty_world = Some w' /\
    files w' !! path_join output_dir (filename_2x_of 16) = Some (PNG img) /\
    files w' !! path_join output_dir (filename_of (16 * 2)) = Some (PNG img).
Proof.
  assert (H : In 16 sizes) by (left; reflexivity).
  split; [exact H|]. split; [lia|].
  apply (double_density_file_equals_next_standard_file (FE := cell_fonts) empty_world 16 H).
  lia.
Defined.

(** X17: the manifest leaves out three of the thirteen images a run of
    main saves: icon_64x64.png, icon_64x64@2x.png and icon_1024x1024.png are
    saved, and no filename member of the manifest names them. *)
Theorem manifest_leaves_out_three_saved_images `{FE : FontEnv} (w : World) :
  exists w' tr,
    main w = Some w' /\
    events w' = events w ++ tr /\
    length (saved_paths tr) = 13%nat /\
    unreferenced manifest_filenames (saved_paths tr) =
      map (path_join output_dir) [filename_of 64; filename_2x_of 64; filename_of 1024].
Proof.
  exists (emit_all main_trace w), main_trace.
  split; [apply main_run|]. split; [apply events_emit_all|].
  rewrite main_trace_events.
  destruct (run_events_facts icon_of) as (_ & _ & _ & _ & _ & Hun & _).
  split; [|exact Hun].
  generalize icon_of. intros icon. vm_compute. reflexivity.
Qed.
